(** * nn_adapt example drivers: [run_adapt.py] and [run_uniform_refinement.py]

    A shallow embedding of the two driver scripts under [examples/].
    The scripts are glue around an external finite-element stack, so the
    embedding keeps the scripts' own control flow, dictionary look-ups,
    assertions and file output, and takes every call into Firedrake and
    into the [nn_adapt] package as a collaborator function.

    Floating-point numbers are idealised: a float is either a rational,
    an infinity or NaN. *)

From Stdlib Require Import ZArith QArith Lia Ascii.
From stdpp Require Import base gmap strings list pretty.

Open Scope Z_scope.

(** ** Python values, exceptions and the [int] built-in *)
Module Py.

Inductive exn : Set :=
| NameError (name : string)
| KeyError (key : string)
| ValueError
| AssertionError
| AttributeError
| NotImplementedError
| OtherError (tag : string).

Inductive result (A : Type) : Type :=
| Ok (a : A)
| Raise (e : exn).
Arguments Ok {A} a.
Arguments Raise {A} e.

(** A Python [float]: a rational stands for every finite value. *)
Inductive float : Set :=
| Finite (q : Q)
| PosInf
| NegInf
| NaN.

(** [np.isnan], element-wise. *)
Definition isnan (x : float) : bool :=
  match x with NaN => true | _ => false end.

(** [np.isfinite], element-wise. *)
Definition isfinite (x : float) : bool :=
  match x with Finite _ => true | _ => false end.

(** [np.isnan(a).any()] *)
Definition any_isnan (a : list float) : bool := existsb isnan a.

(** Characters that [int] skips at both ends of an ASCII string: TAB,
    LF, VT, FF, CR and the space. *)
Definition is_space (a : Ascii.ascii) : bool :=
  let n := Z.of_nat (Ascii.nat_of_ascii a) in
  ((9 <=? n) && (n <=? 13)) || (n =? 32).

Fixpoint lstrip (s : string) : string :=
  match s with
  | String a s' => if is_space a then lstrip s' else s
  | EmptyString => EmptyString
  end.

Fixpoint rstrip (s : string) : string :=
  match s with
  | String a s' =>
      match rstrip s' with
      | EmptyString => if is_space a then EmptyString else String a EmptyString
      | r => String a r
      end
  | EmptyString => EmptyString
  end.

Definition strip (s : string) : string := rstrip (lstrip s).

Definition digit_of (a : Ascii.ascii) : option Z :=
  let n := Z.of_nat (Ascii.nat_of_ascii a) in
  if (48 <=? n) && (n <=? 57) then Some (n - 48) else None.

(** Decimal digits with single underscores allowed between two digits.
    [prev] tells whether the previous character was a digit. *)
Fixpoint digits (acc : Z) (prev : bool) (s : string) : option Z :=
  match s with
  | EmptyString => if prev then Some acc else None
  | String a s' =>
      if Ascii.eqb a "_"%char then
        if prev then digits acc false s' else None
      else
        match digit_of a with
        | Some d => digits (10 * acc + d) true s'
        | None => None
        end
  end.

(** How [int] reads a short ASCII string in base 10: optional blanks,
    an optional sign, decimal digits with single underscores between
    them, optional blanks; [None] is [ValueError]. *)
Definition ascii_int (s : string) : option Z :=
  match strip s with
  | String "-" s' => Z.opp <$> digits 0 false s'
  | String "+" s' => digits 0 false s'
  | s' => digits 0 false s'
  end.

Fixpoint is_ascii (s : string) : bool :=
  match s with
  | EmptyString => true
  | String a s' => (Z.of_nat (Ascii.nat_of_ascii a) <? 128) && is_ascii s'
  end.

(** A string of at most 640 ASCII characters.  Below that length no
    setting of the interpreter's limit on integer digits applies. *)
Definition plain (s : string) : bool :=
  is_ascii s && (String.length s <=? 640)%nat.

(** The [int] built-in applied to a string ([None] is [ValueError]).
    The strings of the model are the arguments as encoded text; what
    [int] makes of digits and blanks outside ASCII, and of very long
    literals, is left to the interpreter, and on plain strings it reads
    them as [ascii_int] does. *)
Class Interpreter : Type := {
  int : string -> option Z;
  int_plain : forall s, plain s = true -> int s = ascii_int s
}.

(** An interpreter that reads every string the ASCII way; it serves in
    the sample runs, whose arguments are plain. *)
Definition ascii_only : Interpreter :=
  {| int := ascii_int; int_plain := fun s _ => eq_refl |}.

(** [sum] of a list of integers. *)
Definition sum (l : list Z) : Z := foldr Z.add 0 l.

End Py.

(** ** Firedrake objects as the scripts observe them *)
Module Fem.

(** A function space exposes [dof_count], one entry per component. *)
Record FunctionSpace : Set := { dof_count : list Z }.

(** A finite-element function: its space and the data of each of its
    components ([split()]). *)
Record Function : Set := {
  function_space : FunctionSpace;
  split : list (list Py.float)
}.

(** [f.dat.data.flatten()] *)
Definition flatten (f : Function) : list Py.float := concat (split f).

(** [Function(V)]: a fresh function on [V], all coefficients zero. *)
Definition new_Function (V : FunctionSpace) : Function :=
  {| function_space := V;
     split := map (fun n => replicate (Z.to_nat n) (Py.Finite 0)) (dof_count V) |}.

Record Mesh : Set := { mesh_id : nat; num_cells : Z }.

End Fem.

(** A dynamically typed Python value, as stored in the result bundle, in
    the module namespace and in the lists handed to [np.save]. *)
Inductive Value : Set :=
| VFloat (x : Py.float)
| VInt (n : Z)
| VFunc (f : Fem.Function)
| VObj (tag : string).

Definition float_array (a : list Py.float) : list Value := map VFloat a.
Definition int_array (a : list Z) : list Value := map VInt a.

(** ** Convergence tracker *)
Module ConvergenceTracker.

Inductive reason : Set :=
| ElementCountConverged
| QoIConverged
| MaxIterationsReached.

(** Modelled from the spec: class [ConvergenceTracker] of
    [nn_adapt/utility.py] is not part of the sources at hand; the
    scripts only construct it and call it.  The tracker holds the
    iteration index, the previous element count (none before the first
    observation), the iteration bound, the element-count tolerance and
    the reason it stopped for. *)
Record t : Set := {
  fp_iteration : Z;
  elements_old : option Z;
  maxiter : Z;
  element_rtol : Q;
  converged_reason : option reason
}.

(** Modelled from the spec: the constructor of the absent class; no
    element count has been observed yet. *)
Definition new (maxiter : Z) (element_rtol : Q) : t :=
  {| fp_iteration := 0; elements_old := None; maxiter := maxiter;
     element_rtol := element_rtol; converged_reason := None |}.

Definition set_fp_iteration (i : Z) (ct : t) : t :=
  {| fp_iteration := i; elements_old := elements_old ct;
     maxiter := maxiter ct; element_rtol := element_rtol ct;
     converged_reason := converged_reason ct |}.

Definition Qltb (x y : Q) : bool := negb (Qle_bool y x).

(** Modelled from the spec: "the relative change between [count] and
    the previous recorded count falls below a configured tolerance",
    that is [|count - old| / |old| < rtol], written without the
    division. *)
Definition relative_change_below (rtol : Q) (count old : Z) : bool :=
  Qltb (inject_Z (Z.abs (count - old))) (rtol * inject_Z (Z.abs old)).

(** Modelled from the spec: method [check_elements] of the absent
    class.  It signals convergence when the relative change is below
    the tolerance; otherwise it records [count] as the new previous
    value and returns false.  The first call has nothing to compare
    with and only records the baseline. *)
Definition check_elements (ct : t) (count : Z) : bool * t :=
  match elements_old ct with
  | Some old =>
      if relative_change_below (element_rtol ct) count old then
        (true,
         {| fp_iteration := fp_iteration ct; elements_old := Some old;
            maxiter := maxiter ct; element_rtol := element_rtol ct;
            converged_reason := Some ElementCountConverged |})
      else
        (false,
         {| fp_iteration := fp_iteration ct; elements_old := Some count;
            maxiter := maxiter ct; element_rtol := element_rtol ct;
            converged_reason := converged_reason ct |})
  | None =>
      (false,
       {| fp_iteration := fp_iteration ct; elements_old := Some count;
          maxiter := maxiter ct; element_rtol := element_rtol ct;
          converged_reason := converged_reason ct |})
  end.

(** Modelled from the spec: method [check_maxiter] of the absent
    class.  It signals when the iteration index equals the configured
    maximum, and then exposes the reason; the caller in [run_adapt.py]
    discards what it returns. *)
Definition check_maxiter (ct : t) : bool * t :=
  if fp_iteration ct =? maxiter ct then
    (true,
     {| fp_iteration := fp_iteration ct; elements_old := elements_old ct;
        maxiter := maxiter ct; element_rtol := element_rtol ct;
        converged_reason := Some MaxIterationsReached |})
  else (false, ct).

(** Feeding a sequence of element counts, one call per count. *)
Fixpoint feed (ct : t) (counts : list Z) : list bool * t :=
  match counts with
  | [] => ([], ct)
  | c :: cs =>
      let '(b, ct1) := check_elements ct c in
      let '(bs, ct2) := feed ct1 cs in
      (b :: bs, ct2)
  end.

End ConvergenceTracker.

(** ** Complexity ramp *)
Module Ramp.

(** Modelled from the spec: function [ramp_complexity] of
    [nn_adapt/metric.py] is not part of the sources at hand.  A linear
    ramp from [base] to [target], clamped at [target] from iteration
    [num_iterations] on; [num_iterations] is the iteration at which the
    ramp is configured to be complete (the call site passes only
    [base], [target] and the iteration index). *)
Definition ramp_complexity (num_iterations : Z) (base target : Q) (i : Z) : Q :=
  if num_iterations <=? i then target
  else (base + (target - base) * (inject_Z i / inject_Z num_iterations))%Q.

End Ramp.

(** ** Scripts as computations that log what they do *)
Module Script.

(** The lines the scripts print. *)
Inductive Msg : Set :=
| MTestCase (test_case : string)
| MMesh (i : Z)
| MElementCount (n : option Z)
| MQoI (qoi : Value) (unit : option string)
| MDoF (dof : Z)
| MEstimator (estimator : Value)
| MTerminated (iterations : Z) (why : option ConvergenceTracker.reason)
| MTotalTime.

(** What a script does to the outside world, in order. *)
Inductive Event : Set :=
| EPrint (m : Msg)
| EImport (module : string)
| EInitialise (test_case : string)
| EMesh (path : string)
| EHierarchy (refinements : Z)
| ESolve (mesh : Fem.Mesh)
| EAssemble (mesh : Fem.Mesh)
| ESave (path : string) (array : list Value)
| EPvd (path : string)
| EIter (i : Z)
| EGoMetric (mesh : Fem.Mesh)
| EFeatures
| EMetric
| EAdapt (mesh : Fem.Mesh).

(** A script run: the events it produced and how it ended. *)
Record script (A : Type) : Type := Run {
  events : list Event;
  outcome : Py.result A
}.
Arguments Run {A} events outcome.
Arguments events {A} s.
Arguments outcome {A} s.

Definition ret {A} (a : A) : script A := Run [] (Py.Ok a).

Definition bind {A B} (m : script A) (k : A -> script B) : script B :=
  match outcome m with
  | Py.Ok a => let r := k a in Run (events m ++ events r) (outcome r)
  | Py.Raise e => Run (events m) (Py.Raise e)
  end.

#[global] Instance script_ret : MRet script := @ret.
#[global] Instance script_bind : MBind script := fun A B k m => bind m k.

Definition emit (e : Event) : script unit := Run [e] (Py.Ok tt).
Definition raise {A} (e : Py.exn) : script A := Run [] (Py.Raise e).
Definition lift {A} (r : Py.result A) : script A := Run [] r.

(** The [assert] statement. *)
Definition assert_ (b : bool) : script unit :=
  if b then ret tt else raise Py.AssertionError.

(** [int(s)] as a statement that may raise [ValueError]. *)
Definition int `{Py.Interpreter} (s : string) : script Z :=
  match Py.int s with
  | Some n => ret n
  | None => raise Py.ValueError
  end.

(** The files [np.save] has left behind after a run ([np.save] adds
    the extension [.npy] to the name it is given). *)
Definition disk (tr : list Event) : gmap string (list Value) :=
  foldl (fun d e => match e with ESave p a => <[p := a]> d | _ => d end) ∅ tr.

Definition is_save (e : Event) : bool :=
  match e with ESave _ _ => true | _ => false end.
Definition is_iter (e : Event) : bool :=
  match e with EIter _ => true | _ => false end.
Definition is_adapt (e : Event) : bool :=
  match e with EAdapt _ => true | _ => false end.
Definition is_heavy (e : Event) : bool :=
  match e with EPrint _ => false | _ => true end.

(** The values the [for] statement bound its target to, in order. *)
Definition iterations (tr : list Event) : list Z :=
  omap (fun e => match e with EIter i => Some i | _ => None end) tr.

Definition count (p : Event -> bool) (tr : list Event) : nat :=
  length (List.filter p tr).

(** Events other than a binding of the loop target or a mesh
    adaptation. *)
Definition quiet (tr : list Event) : Prop :=
  Forall (fun e => is_iter e = false /\ is_adapt e = false) tr.


End Script.
Import Script.

(** ** [run_uniform_refinement.py] *)
Module Uniform.

Record Args : Set := {
  model : string;
  test_case : string;
  num_refinements : option string
}.

(** The surroundings of the script: what the star import of [nn_adapt]
    binds the name [qoi] to (if anything), where the script lives, and
    the Firedrake calls. *)
Class Env : Type := {
  star_qoi : option Value;
  script_dir : string;
  Mesh : string -> Fem.Mesh;
  MeshHierarchy : Fem.Mesh -> Z -> list Fem.Mesh;
  get_solutions : Fem.Mesh -> Fem.Function;
  assemble_qoi : Fem.Mesh -> Fem.Function -> Py.float
}.

(** The three lists kept by the sweep. *)
Record Arrays : Set := {
  qois : list Value;
  dofs : list Z;
  elements : list Z
}.

Definition qois_path (model : string) (test_case : Z) : string :=
  model +:+ "/data/qois_uniform_" +:+ pretty test_case.
Definition dofs_path (model : string) (test_case : Z) : string :=
  model +:+ "/data/dofs_uniform_" +:+ pretty test_case.
Definition elements_path (model : string) (test_case : Z) : string :=
  model +:+ "/data/elements_uniform_" +:+ pretty test_case.

(** Lines 18-19: [int(parsed_args.num_refinements or 5)] and its
    assertion. *)
Definition read_num_refinements `{Py.Interpreter} (a : Args) : script Z :=
  num_refinements ←
    match num_refinements a with
    | None | Some "" => mret 5
    | Some s => int s
    end;
  assert_ (0 <=? num_refinements);;
  mret num_refinements.

(** Lines 14-19: argument validation. *)
Definition validate `{Py.Interpreter} (a : Args) : script (string * Z * Z) :=
  let model := model a in
  assert_ (bool_decide (model ∈ ["stokes"; "turbine"]));;
  test_case ← int (test_case a);
  assert_ (bool_decide (test_case ∈ seqZ 0 12));;
  num_refinements ← read_num_refinements a;
  mret (model, test_case, num_refinements).

Section WithEnv.
Context `{Env}.

(** Reading the global name [qoi]. *)
Definition name_qoi : script Value :=
  match star_qoi with
  | Some v => mret v
  | None => raise (Py.NameError "qoi")
  end.

(** Lines 32-44: the body of the loop, once per mesh of the
    hierarchy, and the loop itself. *)
Fixpoint sweep (model : string) (test_case : Z) (i : Z)
    (mh : list Fem.Mesh) (acc : Arrays) : script Arrays :=
  match mh with
  | [] => mret acc
  | mesh :: rest =>
      emit (EPrint (MMesh i));;
      emit (EPrint (MElementCount (Some (Fem.num_cells mesh))));;
      emit (ESolve mesh);;
      let fwd_sol := get_solutions mesh in
      let fs := Fem.function_space fwd_sol in
      emit (EAssemble mesh);;
      let J := assemble_qoi mesh fwd_sol in
      emit (EPrint (MQoI (VFloat J) None));;
      qoi ← name_qoi;
      let qois := qois acc ++ [qoi] in
      let dofs := dofs acc ++ [Py.sum (Fem.dof_count fs)] in
      let elements := elements acc ++ [Fem.num_cells mesh] in
      emit (ESave (qois_path model test_case) qois);;
      emit (ESave (dofs_path model test_case) (int_array dofs));;
      emit (ESave (elements_path model test_case) (int_array elements));;
      sweep model test_case (i + 1) rest
        {| qois := qois; dofs := dofs; elements := elements |}
  end.

(** The whole script; importing the configuration module stands for
    lines 22-23. *)
Definition main `{Py.Interpreter} (a : Args) : script Arrays :=
  '(model, test_case, num_refinements) ← validate a;
  emit (EImport (model +:+ ".config" +:+ pretty test_case));;
  let path := script_dir +:+ "/" +:+ model +:+ "/meshes/"
              +:+ pretty test_case +:+ ".msh" in
  emit (EMesh path);;
  let mesh := Mesh path in
  emit (EHierarchy num_refinements);;
  let mh := MeshHierarchy mesh num_refinements in
  emit (EPrint (MTestCase (pretty test_case)));;
  sweep model test_case 0 mh {| qois := []; dofs := []; elements := [] |}.

End WithEnv.

End Uniform.

(** ** [run_adapt.py] *)
Module Adapt.

Import ConvergenceTracker.

Record Args : Set := {
  model : string;
  test_case : string;
  approach : string;
  base_complexity : Q;
  target_complexity : Q;
  optimise : bool;
  no_outputs : bool;
  transfer : bool;
  arg_maxiter : Z;
  arg_element_rtol : Q
}.

(** The test case once parsed: a positive integer or the raw string. *)
Inductive TestCase : Set :=
| TCInt (n : Z)
| TCStr (s : string).

(** [f"{test_case}"] *)
Definition fmt (tc : TestCase) : string :=
  match tc with TCInt n => pretty n | TCStr s => s end.

(** [try: m except ValueError: h] *)
Definition try_except_ValueError {A} (m h : script A) : script A :=
  match outcome m with
  | Py.Raise Py.ValueError => Run (events m ++ events h) (outcome h)
  | _ => m
  end.

(** Lines 31-35. *)
Definition parse_test_case `{Py.Interpreter} (s : string) : script TestCase :=
  try_except_ValueError
    (test_case ← int s;
     assert_ (0 <? test_case);;
     mret (TCInt test_case))
    (mret (TCStr s)).

(** The keyword arguments the solve/estimate service receives. *)
Record Kwargs : Type := {
  enrichment_method : string;
  average : bool;
  anisotropic : bool;
  retall : bool;
  kw_target_complexity : Q;
  init : option (Fem.FunctionSpace -> Py.result Fem.Function)
}.

(** The collaborators of the script: the model's configuration module
    and the calls into [nn_adapt] and Firedrake. *)
Class Env : Type := {
  qoi_unit : string;
  h_min : Q;
  h_max : Q;
  ramp_iterations : Z;
  Mesh : string -> Fem.Mesh;
  go_metric : Fem.Mesh -> Kwargs -> ConvergenceTracker.t ->
              gmap string Value * ConvergenceTracker.t;
  extract_features : Fem.Function -> Value -> gmap string (list Py.float);
  clement_interpolant : Value -> Fem.Function;
  hessian_metric : Fem.Function -> Fem.Function;
  space_normalise : Fem.Function -> Q -> Fem.Function;
  enforce_element_constraints : Fem.Function -> Q -> Q -> Q -> Fem.Function;
  adapt : Fem.Mesh -> Fem.Function -> Fem.Mesh;
  (** [ic.project(f)]: the new coefficients of [ic], or an exception *)
  project : Fem.Function -> Fem.Function -> Py.result (list (list Py.float));
  (** [c_init.project(c)]: the new coefficients of the component *)
  project_component : list Py.float -> list Py.float -> Py.result (list Py.float)
}.

(** The module-level variables the loop reads and rebinds. *)
Record State : Set := {
  mesh : Fem.Mesh;
  ct : ConvergenceTracker.t;
  fwd_sol : option Fem.Function;
  kw_init : bool
}.

Inductive Ctl : Set := Continue | Break.

(** What a pass does at most once the loop target is bound: it does
    not rebind the target, it adapts the mesh at most once, it leaves
    the iteration index at [fp], and it asks for another pass only
    after having adapted the mesh. *)
Definition one_cycle (fp : Z) (m : script (Ctl * State)) : Prop :=
  iterations (events m) = []
  /\ (count is_adapt (events m) <= 1)%nat
  /\ forall ctl st', outcome m = Py.Ok (ctl, st') ->
       fp_iteration (ct st') = fp
       /\ (ctl = Continue -> count is_adapt (events m) = 1%nat).

Definition getitem (out : gmap string Value) (key : string) : script Value :=
  match out !! key with
  | Some v => mret v
  | None => raise (Py.KeyError key)
  end.

Definition contains (out : gmap string Value) (key : string) : bool :=
  match out !! key with Some _ => true | None => false end.

(** Attribute access that only a finite-element function supports. *)
Definition as_func (v : Value) : script Fem.Function :=
  match v with
  | VFunc f => mret f
  | _ => raise Py.AttributeError
  end.

Definition set_split (f : Fem.Function) (d : list (list Py.float)) : Fem.Function :=
  {| Fem.function_space := Fem.function_space f; Fem.split := d |}.

Section WithEnv.
Context `{Env}.

(** Lines 106-107: [zip] stops at the shorter of the two lists, and
    the components beyond it keep what they held. *)
Fixpoint project_components (ic src : list (list Py.float))
    : Py.result (list (list Py.float)) :=
  match ic, src with
  | c_init :: ic', c :: src' =>
      match project_component c_init c with
      | Py.Ok d =>
          match project_components ic' src' with
          | Py.Ok rest => Py.Ok (d :: rest)
          | Py.Raise e => Py.Raise e
          end
      | Py.Raise e => Py.Raise e
      end
  | _, _ => Py.Ok ic
  end.

(** Lines 97-108.  [fwd_sol] is the module-level variable at the time
    of the call. *)
Definition proj (fwd_sol : Fem.Function) (V : Fem.FunctionSpace)
    : Py.result Fem.Function :=
  let ic := Fem.new_Function V in
  match project ic fwd_sol with
  | Py.Ok d => Py.Ok (set_split ic d)
  | Py.Raise Py.NotImplementedError =>
      match project_components (Fem.split ic) (Fem.split fwd_sol) with
      | Py.Ok d => Py.Ok (set_split ic d)
      | Py.Raise e => Py.Raise e
      end
  | Py.Raise e => Py.Raise e
  end.

(** The [kwargs] dictionary as passed on line 79. *)
Definition kwargs (a : Args) (st : State) (target_ramp : Q) : Kwargs :=
  {| enrichment_method := "h";
     average := false;
     anisotropic := bool_decide (approach a = "anisotropic");
     retall := true;
     kw_target_complexity := target_ramp;
     init := if kw_init st
             then (fun f => proj f) <$> fwd_sol st
             else None |}.

Definition skip_outputs (a : Args) : bool := no_outputs a || optimise a.
Definition data_dir (a : Args) : string := model a +:+ "/data".
Definition output_dir (a : Args) (tc : TestCase) : string :=
  model a +:+ "/outputs/" +:+ fmt tc +:+ "/GO/" +:+ approach a.
Definition feature_path (a : Args) (key suffix : string) : string :=
  data_dir a +:+ "/feature_" +:+ key +:+ "_" +:+ suffix.
Definition target_path (a : Args) (suffix : string) : string :=
  data_dir a +:+ "/target_" +:+ suffix.

(** Lines 119-120.  The files are written in the order of the keys of
    the map; the script writes them in the order in which the extractor
    filled its dictionary.  The two orders hold the same files with the
    same contents, one file per key. *)
Definition save_features (a : Args) (suffix : string)
    (items : list (string * list Py.float)) : script unit :=
  foldr (fun kv k =>
           emit (ESave (feature_path a kv.1 suffix) (float_array kv.2));; k)
        (mret tt) items.

(** Lines 115-121. *)
Definition harvest (a : Args) (suffix : string)
    (fwd : Fem.Function) (adj_sol dwr : Value) : script unit :=
  emit EFeatures;;
  let features := extract_features fwd adj_sol in
  d ← as_func dwr;
  let target := Fem.flatten d in
  assert_ (negb (Py.any_isnan target));;
  save_features a suffix (map_to_list features);;
  emit (ESave (target_path a suffix) (float_array target)).

(** Lines 124-132; the [RiemannianMetric] built on line 131 is
    assigned the processed field and stands for it. *)
Definition process_metric (p0metric : Value) (target_ramp : Q)
    : script Fem.Function :=
  emit EMetric;;
  let p1metric := hessian_metric (clement_interpolant p0metric) in
  let p1metric := space_normalise p1metric target_ramp in
  let p1metric := enforce_element_constraints p1metric h_min h_max 100000 in
  mret p1metric.

(** Lines 91-95. *)
Definition write_fields (a : Args) (tc : TestCase) (adj_sol : Value)
    : script unit :=
  if skip_outputs a then mret tt
  else
    emit (EPvd (output_dir a tc +:+ "/forward.pvd"));;
    _ ← as_func adj_sol;
    emit (EPvd (output_dir a tc +:+ "/adjoint.pvd"));;
    emit (EPvd (output_dir a tc +:+ "/estimator.pvd"));;
    emit (EPvd (output_dir a tc +:+ "/metric.pvd")).

(** Lines 134-144: adapt, count, and ask the tracker. *)
Definition adapt_and_check (a : Args) (tc : TestCase) (st : State)
    (metric : Fem.Function) : script (Ctl * State) :=
  emit (EAdapt (mesh st));;
  let mesh := adapt (mesh st) metric in
  (if skip_outputs a then mret tt
   else emit (EPvd (output_dir a tc +:+ "/mesh.pvd")));;
  let elements := Fem.num_cells mesh in
  emit (EPrint (MMesh (fp_iteration (ct st) + 1)));;
  emit (EPrint (MElementCount (Some elements)));;
  let '(converged, ct1) := check_elements (ct st) elements in
  if converged then
    mret (Break, {| mesh := mesh; ct := ct1;
                    fwd_sol := fwd_sol st; kw_init := kw_init st |})
  else
    let '(_, ct2) := check_maxiter ct1 in
    mret (Continue, {| mesh := mesh; ct := ct2;
                       fwd_sol := fwd_sol st; kw_init := kw_init st |}).

(** Line 72. *)
Definition suffix (a : Args) (tc : TestCase) (st : State) : string :=
  fmt tc +:+ "_GO" +:+ approach a +:+ "_" +:+ pretty (fp_iteration (ct st)).

(** Line 75. *)
Definition target_ramp (a : Args) (st : State) : Q :=
  Ramp.ramp_complexity ramp_iterations (base_complexity a)
    (target_complexity a) (fp_iteration (ct st)).

(** Line 79: the call of the solve/estimate service; it returns the
    result bundle and the tracker as the service left it. *)
Definition solve (a : Args) (st : State)
    : gmap string Value * ConvergenceTracker.t :=
  go_metric (mesh st) (kwargs a st (target_ramp a st)) (ct st).

(** The solve/estimate service may update the tracker it is handed
    but leaves the iteration index alone. *)
Definition go_metric_keeps_index : Prop :=
  forall mesh kw ct,
    fp_iteration (go_metric mesh kw ct).2 = fp_iteration ct.

(** The solve/estimate service leaves the iteration bound of the
    tracker alone. *)
Definition go_metric_keeps_maxiter : Prop :=
  forall mesh kw ct,
    maxiter (go_metric mesh kw ct).2 = maxiter ct.

(** Lines 72-144: one pass of the loop. *)
Definition body (a : Args) (tc : TestCase) (st : State)
    : script (Ctl * State) :=
  let suffix := suffix a tc st in
  let target_ramp := target_ramp a st in
  emit (EGoMetric (mesh st));;
  let '(out, ct1) := solve a st in
  qoi ← getitem out "qoi";
  forward ← getitem out "forward";
  emit (EPrint (MQoI qoi (Some qoi_unit)));;
  fwd ← as_func forward;
  let dof := Py.sum (Fem.dof_count (Fem.function_space fwd)) in
  emit (EPrint (MDoF dof));;
  let st1 := {| mesh := mesh st; ct := ct1;
                fwd_sol := Some fwd; kw_init := kw_init st |} in
  if negb (contains out "adjoint") then mret (Break, st1)
  else
    estimator ← getitem out "estimator";
    emit (EPrint (MEstimator estimator));;
    if negb (contains out "metric") then mret (Break, st1)
    else
      adj_sol ← getitem out "adjoint";
      dwr ← getitem out "dwr";
      p0metric ← getitem out "metric";
      write_fields a tc adj_sol;;
      let st2 := {| mesh := mesh st; ct := ct1; fwd_sol := Some fwd;
                    kw_init := transfer a || kw_init st |} in
      (if optimise a then mret tt
       else harvest a suffix fwd adj_sol dwr);;
      metric ← process_metric p0metric target_ramp;
      adapt_and_check a tc st2 metric.

(** Line 71: the [for] statement binds its target, the attribute
    [ct.fp_iteration], to the next value of the range. *)
Definition bind_target (i : Z) (st : State) : State :=
  {| mesh := mesh st; ct := set_fp_iteration i (ct st);
     fwd_sol := fwd_sol st; kw_init := kw_init st |}.

(** Line 71: the [for] statement over [range(ct.maxiter + 1)]. *)
Fixpoint loop (a : Args) (tc : TestCase) (range : list Z) (st : State)
    : script State :=
  match range with
  | [] => mret st
  | i :: rest =>
      emit (EIter i);;
      '(ctl, st') ← body a tc (bind_target i st);
      match ctl with
      | Break => mret st'
      | Continue => loop a tc rest st'
      end
  end.

(** The state the loop starts from (lines 49 and 58). *)
Definition initial (a : Args) (tc : TestCase) : State :=
  {| mesh := Mesh (model a +:+ "/meshes/" +:+ fmt tc +:+ ".msh");
     ct := ConvergenceTracker.new (arg_maxiter a) (arg_element_rtol a);
     fwd_sol := None;
     kw_init := false |}.

(** Lines 71-145: the loop and the final report. *)
Definition run_loop (a : Args) (tc : TestCase) (st : State) : script State :=
  st' ← loop a tc (seqZ 0 (maxiter (ct st) + 1)) st;
  emit (EPrint (MTerminated (fp_iteration (ct st') + 1)
                  (converged_reason (ct st'))));;
  emit (EPrint MTotalTime);;
  mret st'.

(** The whole script. *)
Definition main `{Py.Interpreter} (a : Args) : script State :=
  tc ← parse_test_case (test_case a);
  emit (EImport (model a +:+ ".config"));;
  emit (EInitialise (fmt tc));;
  emit (EMesh (model a +:+ "/meshes/" +:+ fmt tc +:+ ".msh"));;
  let st := initial a tc in
  (if skip_outputs a then mret tt
   else emit (EPvd (output_dir a tc +:+ "/mesh.pvd")));;
  emit (EPrint (MTestCase (fmt tc)));;
  emit (EPrint (MMesh 0));;
  emit (EPrint (MElementCount (elements_old (ct st))));;
  run_loop a tc st.

End WithEnv.

End Adapt.

(** ** Concrete surroundings used in the scenarios below *)
Module Scenario.

Definition coarse : Fem.Mesh := {| Fem.mesh_id := 0; Fem.num_cells := 8 |}.

(** A solution with one scalar component and one unknown per cell. *)
Definition solution_on (m : Fem.Mesh) : Fem.Function :=
  Fem.new_Function {| Fem.dof_count := [Fem.num_cells m] |}.

(** Uniform refinement in two dimensions: four times the cells per level. *)
Definition refine_uniformly (m : Fem.Mesh) (n : Z) : list Fem.Mesh :=
  map (fun k : nat =>
         {| Fem.mesh_id := k; Fem.num_cells := Fem.num_cells m * 4 ^ Z.of_nat k |})
      (seq 0 (Z.to_nat (n + 1))).

(** The surroundings of the uniform sweep when the star import binds
    no name [qoi]. *)
Definition uniform_env : Uniform.Env :=
  {| Uniform.star_qoi := None;
     Uniform.script_dir := "/examples";
     Uniform.Mesh := fun _ => coarse;
     Uniform.MeshHierarchy := refine_uniformly;
     Uniform.get_solutions := solution_on;
     Uniform.assemble_qoi := fun m _ => Py.Finite (inject_Z (Fem.num_cells m)) |}.

(** [python run_uniform_refinement.py stokes 0 -num_refinements 2] *)
Definition uniform_args : Uniform.Args :=
  {| Uniform.model := "stokes"; Uniform.test_case := "0";
     Uniform.num_refinements := Some "2" |}.

(** A result bundle with all six keys; [dwr_data] are the values of
    the error indicator. *)
Definition full_bundle (dwr_data : list Py.float) (m : Fem.Mesh)
    : gmap string Value :=
  <["qoi" := VFloat (Py.Finite 1)]>
  (<["forward" := VFunc (solution_on m)]>
  (<["estimator" := VFloat (Py.Finite (1 # 2))]>
  (<["adjoint" := VFunc (solution_on m)]>
  (<["dwr" := VFunc {| Fem.function_space := {| Fem.dof_count := [1] |};
                       Fem.split := [dwr_data] |}]>
  (<["metric" := VFunc (solution_on m)]> ∅))))).

(** Collaborators for [run_adapt.py]: the solve/estimate service
    answers with [bundle], leaves the tracker alone, and every
    adaptation doubles the number of cells; direct projection is not
    available, projection of a component copies it. *)
Definition adapt_env (bundle : Fem.Mesh -> gmap string Value) : Adapt.Env :=
  {| Adapt.qoi_unit := "m";
     Adapt.h_min := 1 # 100;
     Adapt.h_max := 10;
     Adapt.ramp_iterations := 3;
     Adapt.Mesh := fun _ => coarse;
     Adapt.go_metric := fun m _ ct => (bundle m, ct);
     Adapt.extract_features := fun _ _ => {[ "estimator_coarse" := [Py.Finite 1] ]};
     Adapt.clement_interpolant := fun _ => solution_on coarse;
     Adapt.hessian_metric := fun f => f;
     Adapt.space_normalise := fun f _ => f;
     Adapt.enforce_element_constraints := fun f _ _ _ => f;
     Adapt.adapt := fun m _ =>
       {| Fem.mesh_id := S (Fem.mesh_id m); Fem.num_cells := 2 * Fem.num_cells m |};
     Adapt.project := fun _ _ => Py.Raise Py.NotImplementedError;
     Adapt.project_component := fun _ c => Py.Ok c |}.

(** [python run_adapt.py stokes 1 --maxiter 1] with harvesting on and
    file outputs off. *)
Definition adapt_args : Adapt.Args :=
  {| Adapt.model := "stokes"; Adapt.test_case := "1";
     Adapt.approach := "anisotropic";
     Adapt.base_complexity := 200; Adapt.target_complexity := 1000;
     Adapt.optimise := false; Adapt.no_outputs := true;
     Adapt.transfer := true;
     Adapt.arg_maxiter := 1; Adapt.arg_element_rtol := 1 # 100 |}.

(** The run of the adaptation loop on these arguments when every
    bundle is complete and finite, and the state it ends in. *)
Definition adapt_run : script Adapt.State :=
  @Adapt.run_loop (adapt_env (full_bundle [Py.Finite 1])) adapt_args
    (Adapt.TCInt 1)
    (@Adapt.initial (adapt_env (full_bundle [Py.Finite 1])) adapt_args
       (Adapt.TCInt 1)).


End Scenario.

(** ** Further observations on traces *)
Module Observe.

Definition is_pvd (e : Event) : bool :=
  match e with EPvd _ => true | _ => false end.
Definition is_features (e : Event) : bool :=
  match e with EFeatures => true | _ => false end.
Definition is_go (e : Event) : bool :=
  match e with EGoMetric _ => true | _ => false end.

(** The meshes handed to [get_solutions], in order. *)
Definition solves (tr : list Event) : list Fem.Mesh :=
  omap (fun e => match e with ESolve m => Some m | _ => None end) tr.

(** The numbers printed on the [Mesh i] lines, in order. *)
Definition mesh_lines (tr : list Event) : list Z :=
  omap (fun e => match e with EPrint (MMesh i) => Some i | _ => None end) tr.

(** What a statement guarantees of the value it returns, if it returns. *)
Definition returns {A} (m : script A) (Q : A -> Prop) : Prop :=
  forall x, outcome m = Py.Ok x -> Q x.

(** The files a list of events writes with [np.save], on top of [d]. *)
Definition disk_from (d : gmap string (list Value)) (tr : list Event)
    : gmap string (list Value) :=
  foldl (fun d e => match e with ESave p a => <[p := a]> d | _ => d end) d tr.

(** [sum(fs.dof_count)] for the forward solution on a mesh (lines 35-36
    and 40 of the uniform sweep). *)
Definition dof_total `{Uniform.Env} (mesh : Fem.Mesh) : Z :=
  Py.sum (Fem.dof_count (Fem.function_space (Uniform.get_solutions mesh))).

(** An event that the flags of a run allow: no [.pvd] output when
    outputs are skipped, no harvesting when [--optimise] is given. *)
Definition respects_flags (a : Adapt.Args) (e : Event) : Prop :=
  (Adapt.skip_outputs a = true -> is_pvd e = false)
  /\ (Adapt.optimise a = true -> is_save e = false /\ is_features e = false).

(** As many calls of the solve/estimate service as bindings of the loop
    target. *)
Definition balanced {A} (m : script A) : Prop :=
  count is_go (events m) = length (iterations (events m)).

(** The states in which the passes of the loop start, in order: the
    state the [for] statement has just bound its target in. *)
Fixpoint pass_states `{Adapt.Env} (a : Adapt.Args) (tc : Adapt.TestCase)
    (range : list Z) (st : Adapt.State) : list Adapt.State :=
  match range with
  | [] => []
  | i :: rest =>
      Adapt.bind_target i st
      :: match outcome (Adapt.body a tc (Adapt.bind_target i st)) with
         | Py.Ok (Adapt.Continue, st') => pass_states a tc rest st'
         | _ => []
         end
  end.

(** The keyword arguments of a call of the solve/estimate service in
    the pass with index [i], for a given initial guess: the dictionary
    of lines 52-57 with [target_complexity] from the ramp (line 75). *)
Definition call_kwargs `{Adapt.Env} (a : Adapt.Args) (i : Z)
    (init : option (Fem.FunctionSpace -> Py.result Fem.Function))
    : Adapt.Kwargs :=
  {| Adapt.enrichment_method := "h";
     Adapt.average := false;
     Adapt.anisotropic := bool_decide (Adapt.approach a = "anisotropic");
     Adapt.retall := true;
     Adapt.kw_target_complexity :=
       Ramp.ramp_complexity Adapt.ramp_iterations (Adapt.base_complexity a)
         (Adapt.target_complexity a) i;
     Adapt.init := init |}.

(** Line 79 in state [s]: the service is called on the current mesh
    and tracker, with the dictionary of that pass and the initial guess
    [init]. *)
Definition called_with `{Adapt.Env} (a : Adapt.Args) (s : Adapt.State)
    (init : option (Fem.FunctionSpace -> Py.result Fem.Function)) : Prop :=
  Adapt.solve a s
  = Adapt.go_metric (Adapt.mesh s)
      (call_kwargs a (ConvergenceTracker.fp_iteration (Adapt.ct s)) init)
      (Adapt.ct s).

(** Whether the loop uses up its range: every pass ends by asking for
    the next one, none leaves the loop and none raises. *)
Fixpoint runs_out `{Adapt.Env} (a : Adapt.Args) (tc : Adapt.TestCase)
    (range : list Z) (st : Adapt.State) : bool :=
  match range with
  | [] => true
  | i :: rest =>
      match outcome (Adapt.body a tc (Adapt.bind_target i st)) with
      | Py.Ok (Adapt.Continue, st') => runs_out a tc rest st'
      | _ => false
      end
  end.

(** The calls of the solve/estimate service among the events. *)
Definition go_calls (tr : list Event) : list Fem.Mesh :=
  omap (fun e => match e with EGoMetric m => Some m | _ => None end) tr.

(** A string without any of the characters [int] strips. *)
Fixpoint no_space (s : string) : bool :=
  match s with
  | EmptyString => true
  | String c s' => negb (Py.is_space c) && no_space s'
  end.

End Observe.
Import Observe.

(** ** More sample surroundings *)
Module Samples.

(** The uniform sweep when the star import does bind a name [qoi]. *)
Definition bound_env : Uniform.Env :=
  {| Uniform.star_qoi := Some (VObj "nn_adapt.qoi");
     Uniform.script_dir := "/examples";
     Uniform.Mesh := fun _ => Scenario.coarse;
     Uniform.MeshHierarchy := Scenario.refine_uniformly;
     Uniform.get_solutions := Scenario.solution_on;
     Uniform.assemble_qoi := fun m _ => Py.Finite (inject_Z (Fem.num_cells m)) |}.

(** [python run_adapt.py stokes 1 --maxiter 1 --optimise] *)
Definition optimise_args : Adapt.Args :=
  {| Adapt.model := "stokes"; Adapt.test_case := "1";
     Adapt.approach := "isotropic";
     Adapt.base_complexity := 200; Adapt.target_complexity := 1000;
     Adapt.optimise := true; Adapt.no_outputs := false;
     Adapt.transfer := false;
     Adapt.arg_maxiter := 1; Adapt.arg_element_rtol := 1 # 100 |}.

(** A previous solution with one component, to be carried over to a
    space with two. *)
Definition one_component : Fem.Function :=
  {| Fem.function_space := {| Fem.dof_count := [2] |};
     Fem.split := [[Py.Finite 1; Py.Finite 2]] |}.

Definition two_components : Fem.FunctionSpace := {| Fem.dof_count := [2; 1] |}.

End Samples.

(** * Properties *)

(** ** The [int] built-in on sample arguments *)

Example int_12 : Py.ascii_int " 12 " = Some 12. Proof. reflexivity. Qed.
Example int_m3 : Py.ascii_int "-3" = Some (-3). Proof. reflexivity. Qed.
Example int_underscore : Py.ascii_int "1_000" = Some 1000. Proof. reflexivity. Qed.
Example int_leading_zeros : Py.ascii_int "007" = Some 7. Proof. reflexivity. Qed.
Example int_double_underscore : Py.ascii_int "1__0" = None. Proof. reflexivity. Qed.
Example int_letters : Py.ascii_int "abc" = None. Proof. reflexivity. Qed.
Example int_inner_space : Py.ascii_int "- 3" = None. Proof. reflexivity. Qed.
Example int_empty : Py.ascii_int "" = None. Proof. reflexivity. Qed.
Example int_tab : Py.ascii_int (String (Ascii.ascii_of_nat 9) "12") = Some 12.
Proof. reflexivity. Qed.
Example int_unit_separator :
  Py.ascii_int (String (Ascii.ascii_of_nat 31) "12") = None.
Proof. reflexivity. Qed.

(** ** Convergence tracker *)
Section TrackerFacts.
Import ConvergenceTracker.

Lemma Qltb_lt (x y : Q) : Qltb x y = true <-> (x < y)%Q.
Proof.
  unfold Qltb. rewrite negb_true_iff. split.
  - intros Hb. apply Qnot_le_lt. intros Hle.
    apply Qle_bool_iff in Hle. congruence.
  - intros Hlt. destruct (Qle_bool y x) eqn:Hb; [|reflexivity].
    apply Qle_bool_iff in Hb. exfalso. exact (Qlt_not_le _ _ Hlt Hb).
Qed.

Lemma relative_change_below_iff (rtol : Q) (count old : Z) :
  relative_change_below rtol count old = true <->
  (inject_Z (Z.abs (count - old)) < rtol * inject_Z (Z.abs old))%Q.
Proof. apply Qltb_lt. Qed.

(** For a non-zero previous count the product form used by the model
    is the quotient form of the relative change. *)
Lemma relative_change_as_quotient (rtol : Q) (count old : Z) :
  old <> 0 ->
  relative_change_below rtol count old = true <->
  (inject_Z (Z.abs (count - old)) / inject_Z (Z.abs old) < rtol)%Q.
Proof.
  intros Hold. rewrite relative_change_below_iff.
  assert (Hpos : (0 < inject_Z (Z.abs old))%Q).
  { change 0%Q with (inject_Z 0). rewrite <- Zlt_Qlt. lia. }
  split; intros Hlt.
  - apply Qlt_shift_div_r; assumption.
  - apply (Qmult_lt_r _ _ _ Hpos) in Hlt.
    unfold Qdiv in Hlt. rewrite <- Qmult_assoc in Hlt.
    rewrite (Qmult_comm (/ _)) in Hlt. rewrite Qmult_inv_r in Hlt.
    + rewrite Qmult_1_r in Hlt. exact Hlt.
    + intros Heq. rewrite Heq in Hpos. exact (Qlt_irrefl _ Hpos).
Qed.

Lemma check_elements_keeps_counter (ct : t) (count : Z) :
  fp_iteration (check_elements ct count).2 = fp_iteration ct
  /\ maxiter (check_elements ct count).2 = maxiter ct.
Proof.
  unfold check_elements.
  destruct (elements_old ct) as [old|]; [|split; reflexivity].
  destruct (relative_change_below _ _ _); split; reflexivity.
Qed.

Lemma check_maxiter_keeps_counter (ct : t) :
  fp_iteration (check_maxiter ct).2 = fp_iteration ct
  /\ maxiter (check_maxiter ct).2 = maxiter ct.
Proof.
  unfold check_maxiter.
  destruct (fp_iteration ct =? maxiter ct); split; reflexivity.
Qed.

(** The first answer to a fresh tracker is always negative. *)
Lemma feed_first_false (m : Z) (rtol : Q) (c : Z) (cs : list Z) :
  head (feed (new m rtol) (c :: cs)).1 = Some false.
Proof.
  cbn. destruct (feed _ cs). reflexivity.
Qed.

End TrackerFacts.

(** C5. [check_elements] on the tracker as the specification describes
    it: the first call (no previous count) answers false whatever the
    count and records it as the baseline; afterwards the answer is true
    exactly when the relative change from the previous recorded count is
    below the tolerance; a negative answer records the count as the new
    previous value; and with tolerance 0.01 the counts 100, 100, 100
    give false, true, true. *)
Theorem check_elements_relative_change (ct : ConvergenceTracker.t) (count : Z) :
  (ConvergenceTracker.elements_old ct = None ->
     (ConvergenceTracker.check_elements ct count).1 = false)
  /\ (forall old, ConvergenceTracker.elements_old ct = Some old ->
        ((ConvergenceTracker.check_elements ct count).1 = true <->
         (inject_Z (Z.abs (count - old))
            < ConvergenceTracker.element_rtol ct * inject_Z (Z.abs old))%Q))
  /\ ((ConvergenceTracker.check_elements ct count).1 = false ->
        ConvergenceTracker.elements_old (ConvergenceTracker.check_elements ct count).2
        = Some count)
  /\ ((ConvergenceTracker.check_elements ct count).1 = true ->
        ConvergenceTracker.elements_old (ConvergenceTracker.check_elements ct count).2
        = ConvergenceTracker.elements_old ct)
  /\ (forall cs, head (ConvergenceTracker.feed
                    (ConvergenceTracker.new (ConvergenceTracker.maxiter ct)
                       (ConvergenceTracker.element_rtol ct)) (count :: cs)).1
                 = Some false)
  /\ (ConvergenceTracker.feed (ConvergenceTracker.new 3 (1 # 100)) [100; 100; 100]).1
     = [false; true; true].
Proof.
  unfold ConvergenceTracker.check_elements.
  split; [|split; [|split; [|split; [|split]]]].
  - intros ->. reflexivity.
  - intros old Hold. rewrite Hold. split.
    + destruct (ConvergenceTracker.relative_change_below _ _ _) eqn:Hb.
      * intros _. apply relative_change_below_iff. exact Hb.
      * cbn. discriminate.
    + intros Hlt. apply relative_change_below_iff in Hlt.
      rewrite Hlt. reflexivity.
  - destruct (ConvergenceTracker.elements_old ct) as [old|]; [|reflexivity].
    destruct (ConvergenceTracker.relative_change_below _ _ _); [discriminate|reflexivity].
  - destruct (ConvergenceTracker.elements_old ct) as [old|]; [|discriminate].
    destruct (ConvergenceTracker.relative_change_below _ _ _); [reflexivity|discriminate].
  - intros cs. apply feed_first_false.
  - reflexivity.
Qed.

(** The statement above at a tracker that has recorded 100 elements and
    is asked about 100 again with tolerance 0.01. *)
Lemma check_elements_relative_change_witness :
  (ConvergenceTracker.check_elements
     {| ConvergenceTracker.fp_iteration := 1;
        ConvergenceTracker.elements_old := Some 100;
        ConvergenceTracker.maxiter := 3;
        ConvergenceTracker.element_rtol := 1 # 100;
        ConvergenceTracker.converged_reason := None |} 100).1 = true.
Proof.
  apply (proj1 (proj2 (check_elements_relative_change
           {| ConvergenceTracker.fp_iteration := 1;
              ConvergenceTracker.elements_old := Some 100;
              ConvergenceTracker.maxiter := 3;
              ConvergenceTracker.element_rtol := 1 # 100;
              ConvergenceTracker.converged_reason := None |} 100)) 100 eq_refl).
  reflexivity.
Defined.

(** ** Complexity ramp *)
Section RampFacts.

Lemma ramp_fraction_le (n i j : Z) :
  0 < n -> i <= j -> (inject_Z i / inject_Z n <= inject_Z j / inject_Z n)%Q.
Proof.
  intros Hn Hij. unfold Qdiv. apply Qmult_le_compat_r.
  - rewrite <- Zle_Qle. exact Hij.
  - apply Qinv_le_0_compat. change 0%Q with (inject_Z 0).
    rewrite <- Zle_Qle. lia.
Qed.

Lemma ramp_fraction_le_1 (n i : Z) :
  0 < n -> i <= n -> (inject_Z i / inject_Z n <= 1)%Q.
Proof.
  intros Hn Hi.
  assert (Hnz : ~ (inject_Z n == 0)%Q).
  { change 0%Q with (inject_Z 0). rewrite inject_Z_injective. lia. }
  rewrite <- (Qmult_inv_r (inject_Z n)) by exact Hnz.
  apply (ramp_fraction_le n i n); assumption.
Qed.

Lemma ramp_fraction_ge_0 (n i : Z) :
  0 < n -> 0 <= i -> (0 <= inject_Z i / inject_Z n)%Q.
Proof.
  intros Hn Hi.
  assert (Heq : (0 == inject_Z 0 / inject_Z n)%Q) by (unfold Qdiv; ring).
  rewrite Heq. apply ramp_fraction_le; assumption.
Qed.

(** A point [base + (target - base) * x] of the segment moves up with [x]. *)
Lemma segment_le (base target x y : Q) :
  (base <= target)%Q -> (x <= y)%Q ->
  (base + (target - base) * x <= base + (target - base) * y)%Q.
Proof.
  intros Hbt Hxy. apply Qplus_le_r.
  rewrite !(Qmult_comm (target - base)).
  apply Qmult_le_compat_r; [exact Hxy|].
  apply -> Qle_minus_iff. exact Hbt.
Qed.

End RampFacts.

(** C7. The complexity ramp as the specification describes it (linear,
    clamped, complete at iteration [n]) is a function of its arguments
    alone; for a ramp that goes up ([base <= target]) and takes at least
    one iteration ([0 < n]) it equals the base at iteration 0, equals the
    target at and after iteration [n], never decreases with the iteration
    index and stays between base and target; from 200 to 1000 it starts
    at 200 and is 1000 at the iteration where it is complete. *)
Theorem ramp_complexity_monotone (n : Z) (base target : Q) :
  0 < n -> (base <= target)%Q ->
  (Ramp.ramp_complexity n base target 0 == base)%Q
  /\ (forall i, n <= i -> Ramp.ramp_complexity n base target i = target)
  /\ (forall i j, 0 <= i -> i <= j ->
        (Ramp.ramp_complexity n base target i
         <= Ramp.ramp_complexity n base target j)%Q)
  /\ (forall i, 0 <= i ->
        (base <= Ramp.ramp_complexity n base target i)%Q
        /\ (Ramp.ramp_complexity n base target i <= target)%Q)
  /\ (Ramp.ramp_complexity n 200 1000 0 == 200)%Q
  /\ Ramp.ramp_complexity n 200 1000 n = 1000%Q.
Proof.
  intros Hn Hbt.
  assert (Hzero : forall b t : Q, (Ramp.ramp_complexity n b t 0 == b)%Q).
  { intros b t. unfold Ramp.ramp_complexity.
    destruct (Z.leb_spec n 0); [lia|].
    unfold Qdiv. change (inject_Z 0) with 0%Q. ring. }
  assert (Hfull : forall (b t : Q) i, n <= i -> Ramp.ramp_complexity n b t i = t).
  { intros b t i Hi. unfold Ramp.ramp_complexity.
    destruct (Z.leb_spec n i); [reflexivity|lia]. }
  assert (Hup : forall x : Q, (x <= 1)%Q ->
            (base + (target - base) * x <= target)%Q).
  { intros x Hx.
    assert (Heq : (target == base + (target - base) * 1)%Q) by ring.
    rewrite Heq at 2. apply segment_le; assumption. }
  assert (Hlow : forall x : Q, (0 <= x)%Q ->
            (base <= base + (target - base) * x)%Q).
  { intros x Hx.
    assert (Heq : (base == base + (target - base) * 0)%Q) by ring.
    rewrite Heq at 1. apply segment_le; assumption. }
  split; [apply Hzero|]. split; [apply Hfull|]. split; [|split; [|split]].
  - intros i j Hi Hij. unfold Ramp.ramp_complexity.
    destruct (Z.leb_spec n i), (Z.leb_spec n j); try lia.
    + apply Qle_refl.
    + apply Hup. apply ramp_fraction_le_1; lia.
    + apply segment_le; [exact Hbt|]. apply ramp_fraction_le; lia.
  - intros i Hi. unfold Ramp.ramp_complexity.
    destruct (Z.leb_spec n i).
    + split; [exact Hbt|apply Qle_refl].
    + split.
      * apply Hlow. apply ramp_fraction_ge_0; lia.
      * apply Hup. apply ramp_fraction_le_1; lia.
  - apply Hzero.
  - apply Hfull. lia.
Qed.

(** The ramp from 200 to 1000 that is complete at iteration 3. *)
Lemma ramp_complexity_monotone_witness :
  (Ramp.ramp_complexity 3 200 1000 0 == 200)%Q
  /\ Ramp.ramp_complexity 3 200 1000 3 = 1000%Q
  /\ (Ramp.ramp_complexity 3 200 1000 1 <= Ramp.ramp_complexity 3 200 1000 2)%Q.
Proof.
  assert (Hn : 0 < 3) by lia.
  assert (Hbt : (200 <= 1000)%Q) by (unfold Qle; simpl; lia).
  destruct (ramp_complexity_monotone 3 200 1000 Hn Hbt)
    as (H0 & Hfull & Hmono & _).
  split; [exact H0|]. split; [apply Hfull; lia|]. apply Hmono; lia.
Defined.

(** ** Argument handling of the two scripts *)

Lemma bind_raise {A B} (m : script A) (k : A -> script B) (e : Py.exn) :
  outcome m = Py.Raise e -> m ≫= k = Run (events m) (Py.Raise e).
Proof.
  intros Hm. unfold mbind, script_bind, bind. rewrite Hm. reflexivity.
Qed.

Lemma bind_ok {A B} (m : script A) (k : A -> script B) (x : A) :
  outcome m = Py.Ok x ->
  m ≫= k = Run (events m ++ events (k x)) (outcome (k x)).
Proof.
  intros Hm. unfold mbind, script_bind, bind. rewrite Hm. reflexivity.
Qed.

(** On a plain string every interpreter reads what the ASCII reader
    reads. *)
Lemma int_of_plain `{Py.Interpreter} (s : string) :
  Py.plain s = true -> Script.int s = @Script.int Py.ascii_only s.
Proof.
  intros Hs. unfold Script.int. rewrite (Py.int_plain s Hs). reflexivity.
Qed.

(** C10. In [run_adapt.py] a test-case argument that [int] accepts and
    that is zero or negative ends the script with [AssertionError] during
    argument handling, before anything else happens; the raw string is
    kept as the test case exactly when [int] itself raises [ValueError];
    ["0"] and ["-3"] are rejected. *)
Theorem adapt_test_case_nonpositive_rejected `{Py.Interpreter} (s : string) :
  (forall n, Py.int s = Some n -> n <= 0 ->
     Adapt.parse_test_case s = Run [] (Py.Raise Py.AssertionError)
     /\ forall (E : Adapt.Env) a, Adapt.test_case a = s ->
          Adapt.main a = Run [] (Py.Raise Py.AssertionError))
  /\ (outcome (Adapt.parse_test_case s) = Py.Ok (Adapt.TCStr s) <->
      Py.int s = None)
  /\ Adapt.parse_test_case "0" = Run [] (Py.Raise Py.AssertionError)
  /\ Adapt.parse_test_case "-3" = Run [] (Py.Raise Py.AssertionError).
Proof.
  split; [|split; [|split]].
  - intros n Hint Hn.
    assert (Hparse : Adapt.parse_test_case s = Run [] (Py.Raise Py.AssertionError)).
    { unfold Adapt.parse_test_case, Script.int. rewrite Hint.
      cbn. destruct (Z.ltb_spec 0 n); [lia|reflexivity]. }
    split; [exact Hparse|].
    intros E a <-. unfold Adapt.main.
    rewrite (bind_raise _ _ Py.AssertionError); rewrite Hparse; reflexivity.
  - unfold Adapt.parse_test_case, Script.int.
    destruct (Py.int s) as [n|]; cbn.
    + destruct (0 <? n); cbn; split; discriminate.
    + split; reflexivity.
  - unfold Adapt.parse_test_case. rewrite (int_of_plain "0" eq_refl).
    reflexivity.
  - unfold Adapt.parse_test_case. rewrite (int_of_plain "-3" eq_refl).
    reflexivity.
Qed.

(** The statement above at the argument ["-3"], read the ASCII way. *)
Lemma adapt_test_case_nonpositive_rejected_witness :
  @Adapt.parse_test_case Py.ascii_only "-3"
  = Run [] (Py.Raise Py.AssertionError).
Proof.
  apply (proj1 (@adapt_test_case_nonpositive_rejected Py.ascii_only "-3") (-3)).
  - reflexivity.
  - lia.
Defined.

(** A unit separator (byte 31) is not a blank for [int]: the argument
    is refused by [int] and kept as a string identifier. *)
Example unit_separator_kept_as_string `{Py.Interpreter} :
  Adapt.parse_test_case (String (Ascii.ascii_of_nat 31) "0")
  = Run [] (Py.Ok (Adapt.TCStr (String (Ascii.ascii_of_nat 31) "0"))).
Proof.
  unfold Adapt.parse_test_case.
  rewrite (int_of_plain (String (Ascii.ascii_of_nat 31) "0") eq_refl).
  reflexivity.
Qed.

Lemma read_num_refinements_silent `{Py.Interpreter} (a : Uniform.Args) :
  events (Uniform.read_num_refinements a) = [].
Proof.
  unfold Uniform.read_num_refinements, Script.int.
  destruct (Uniform.num_refinements a) as [[|c s]|]; cbn;
    try reflexivity.
  destruct (Py.int (String c s)) as [n|]; cbn; [|reflexivity].
  destruct (0 <=? n); reflexivity.
Qed.

(** A test case that is not an integer literal stops the uniform sweep
    with [ValueError], raised by [int] on line 16. *)
Lemma uniform_test_case_not_integer `{Py.Interpreter} (a : Uniform.Args) :
  Uniform.model a ∈ ["stokes"; "turbine"] ->
  Py.int (Uniform.test_case a) = None ->
  Uniform.validate a = Run [] (Py.Raise Py.ValueError).
Proof.
  intros Hmodel Hint. unfold Uniform.validate, Script.int.
  rewrite (bool_decide_eq_true_2 _ Hmodel), Hint. reflexivity.
Qed.

Lemma validate_silent `{Py.Interpreter} (a : Uniform.Args) :
  events (Uniform.validate a) = [].
Proof.
  unfold Uniform.validate, Script.int.
  destruct (bool_decide (Uniform.model a ∈ ["stokes"; "turbine"]));
    [|reflexivity].
  destruct (Py.int (Uniform.test_case a)) as [n|]; [|reflexivity].
  cbn.
  destruct (bool_decide (n ∈ seqZ 0 12)); [|reflexivity].
  pose proof (read_num_refinements_silent a) as Hnr.
  cbn. unfold bind.
  destruct (Uniform.read_num_refinements a) as [ev [nr|e]];
    cbn in *; subst; reflexivity.
Qed.

(** [python run_uniform_refinement.py stokes abc]: the model is allowed,
    the test case is no integer literal.  Whatever the interpreter and
    the surroundings, the script stops with [ValueError]. *)
Lemma uniform_stokes_abc `{Py.Interpreter} (E : Uniform.Env) :
  Uniform.main {| Uniform.model := "stokes"; Uniform.test_case := "abc";
                  Uniform.num_refinements := None |}
  = Run [] (Py.Raise Py.ValueError).
Proof.
  unfold Uniform.main.
  rewrite (bind_raise _ _ Py.ValueError);
    unfold Uniform.validate; cbn [Uniform.model Uniform.test_case];
    rewrite (int_of_plain "abc" eq_refl); reflexivity.
Qed.

(** C8, as the claim words it, fails: for [stokes abc] the validation of
    the test case fails, and the script ends with [ValueError], which is
    not an assertion failure.  The argument is plain, so every
    interpreter reads it alike; the sample surroundings stand for any. *)
Lemma uniform_non_integer_test_case_is_value_error :
  Py.plain "abc" = true
  /\ "stokes" ∈ ["stokes"; "turbine"]
  /\ @Uniform.main Scenario.uniform_env Py.ascii_only
       {| Uniform.model := "stokes"; Uniform.test_case := "abc";
          Uniform.num_refinements := None |}
     = Run [] (Py.Raise Py.ValueError)
  /\ outcome (@Uniform.main Scenario.uniform_env Py.ascii_only
                {| Uniform.model := "stokes"; Uniform.test_case := "abc";
                   Uniform.num_refinements := None |})
     <> Py.Raise Py.AssertionError.
Proof.
  split; [reflexivity|]. split; [apply list_elem_of_here|].
  rewrite (@uniform_stokes_abc Py.ascii_only Scenario.uniform_env).
  split; [reflexivity|discriminate].
Qed.

(** With plain arguments the uniform sweep runs the same under every
    interpreter. *)
Lemma uniform_main_plain `{Py.Interpreter} (E : Uniform.Env)
    (a : Uniform.Args) :
  Py.plain (Uniform.test_case a) = true ->
  Py.plain (default "" (Uniform.num_refinements a)) = true ->
  Uniform.main a = @Uniform.main E Py.ascii_only a.
Proof.
  intros Ht Hr.
  unfold Uniform.main, Uniform.validate, Uniform.read_num_refinements.
  rewrite (int_of_plain _ Ht).
  destruct (Uniform.num_refinements a) as [[|c s]|]; try reflexivity.
  cbn [default] in Hr. rewrite (int_of_plain _ Hr). reflexivity.
Qed.

(** C8. The uniform sweep checks its arguments before it does anything
    else.  A model outside the two allowed names ends the script with
    [AssertionError]; for an allowed model, a test case that [int]
    refuses ends it with [ValueError] (not an assertion), an integer
    test case outside 0..11 ends it with [AssertionError], and for a
    test case in range neither assertion fires and what remains is the
    handling of [-num_refinements].  Validation itself produces no
    event, and when it fails, with whatever exception, the script has
    not imported the configuration, loaded a mesh or solved anything. *)
Theorem uniform_validation_before_work `{Py.Interpreter} (a : Uniform.Args) :
  (Uniform.model a ∉ ["stokes"; "turbine"] ->
     Uniform.validate a = Run [] (Py.Raise Py.AssertionError))
  /\ (Uniform.model a ∈ ["stokes"; "turbine"] ->
      Py.int (Uniform.test_case a) = None ->
        Uniform.validate a = Run [] (Py.Raise Py.ValueError))
  /\ (forall n, Uniform.model a ∈ ["stokes"; "turbine"] ->
        Py.int (Uniform.test_case a) = Some n -> ~ (0 <= n < 12) ->
        Uniform.validate a = Run [] (Py.Raise Py.AssertionError))
  /\ (forall n, Uniform.model a ∈ ["stokes"; "turbine"] ->
        Py.int (Uniform.test_case a) = Some n -> 0 <= n < 12 ->
        Uniform.validate a
        = (num_refinements ← Uniform.read_num_refinements a;
           mret (Uniform.model a, n, num_refinements)))
  /\ events (Uniform.validate a) = []
  /\ (forall (E : Uniform.Env) e,
        outcome (Uniform.validate a) = Py.Raise e ->
        Uniform.main a = Run [] (Py.Raise e)).
Proof.
  assert (Hrange : forall n, n ∈ seqZ 0 12 <-> 0 <= n < 12).
  { intros n. rewrite elem_of_seqZ. lia. }
  pose proof (validate_silent a) as Hsilent.
  split; [|split; [|split; [|split; [|split]]]].
  - intros Hmodel. unfold Uniform.validate.
    rewrite (bool_decide_eq_false_2 _ Hmodel). reflexivity.
  - apply uniform_test_case_not_integer.
  - intros n Hmodel Hint Hn. unfold Uniform.validate, Script.int.
    rewrite (bool_decide_eq_true_2 _ Hmodel), Hint.
    assert (Hout : n ∉ seqZ 0 12) by (rewrite Hrange; exact Hn).
    cbn. rewrite (bool_decide_eq_false_2 _ Hout). reflexivity.
  - intros n Hmodel Hint Hn. unfold Uniform.validate, Script.int.
    rewrite (bool_decide_eq_true_2 _ Hmodel), Hint.
    assert (Hin : n ∈ seqZ 0 12) by (rewrite Hrange; exact Hn).
    cbn. rewrite (bool_decide_eq_true_2 _ Hin). cbn. unfold bind.
    destruct (Uniform.read_num_refinements a) as [ev [nr|e]];
      cbn; rewrite ?app_nil_r; reflexivity.
  - exact Hsilent.
  - intros E e Hraise. unfold Uniform.main.
    rewrite (bind_raise _ _ e Hraise), Hsilent. reflexivity.
Qed.

(** The statement above for [stokes 12], read the ASCII way: the test
    case is out of range. *)
Lemma uniform_validation_before_work_witness :
  @Uniform.validate Py.ascii_only
    {| Uniform.model := "stokes"; Uniform.test_case := "12";
       Uniform.num_refinements := None |}
  = Run [] (Py.Raise Py.AssertionError).
Proof.
  apply (proj1 (proj2 (proj2 (@uniform_validation_before_work Py.ascii_only
           {| Uniform.model := "stokes"; Uniform.test_case := "12";
              Uniform.num_refinements := None |}))) 12).
  - apply list_elem_of_here.
  - reflexivity.
  - lia.
Defined.

(** ** Traces of composed scripts *)
Section ScriptFacts.
Context {A B : Type}.
Implicit Types (m : script A) (k : A -> script B).

Lemma events_bind m k :
  events (m ≫= k)
  = events m ++ match outcome m with
                | Py.Ok x => events (k x)
                | Py.Raise _ => []
                end.
Proof.
  unfold mbind, script_bind, bind.
  destruct (outcome m); cbn; [reflexivity|].
  symmetry. apply app_nil_r.
Qed.

Lemma outcome_bind m k :
  outcome (m ≫= k)
  = match outcome m with
    | Py.Ok x => outcome (k x)
    | Py.Raise e => Py.Raise e
    end.
Proof. unfold mbind, script_bind, bind. destruct (outcome m); reflexivity. Qed.

Lemma outcome_bind_inv m k (y : B) :
  outcome (m ≫= k) = Py.Ok y ->
  exists x, outcome m = Py.Ok x /\ outcome (k x) = Py.Ok y.
Proof.
  rewrite outcome_bind. destruct (outcome m) as [x|e]; [|discriminate].
  intros Hk. exists x. split; [reflexivity|exact Hk].
Qed.

End ScriptFacts.

Section TraceFacts.

Lemma iterations_app (t1 t2 : list Event) :
  iterations (t1 ++ t2) = iterations t1 ++ iterations t2.
Proof. unfold iterations. apply omap_app. Qed.

Lemma iterations_cons (e : Event) (tr : list Event) :
  iterations (e :: tr)
  = match e with EIter i => i :: iterations tr | _ => iterations tr end.
Proof. destruct e; reflexivity. Qed.

Lemma count_app (p : Event -> bool) (t1 t2 : list Event) :
  count p (t1 ++ t2) = (count p t1 + count p t2)%nat.
Proof. unfold count. rewrite List.filter_app, length_app. reflexivity. Qed.

Lemma count_cons (p : Event -> bool) (e : Event) (tr : list Event) :
  count p (e :: tr) = if p e then S (count p tr) else count p tr.
Proof. unfold count. cbn. destruct (p e); reflexivity. Qed.


Lemma quiet_nil : quiet [].
Proof. constructor. Qed.

Lemma quiet_app (t1 t2 : list Event) : quiet t1 -> quiet t2 -> quiet (t1 ++ t2).
Proof. unfold quiet. rewrite Forall_app. auto. Qed.

Lemma quiet_iterations (tr : list Event) : quiet tr -> iterations tr = [].
Proof.
  induction 1 as [|e tr [Hi _] _ IH]; [reflexivity|].
  destruct e; try discriminate; exact IH.
Qed.

Lemma quiet_count_adapt (tr : list Event) : quiet tr -> count is_adapt tr = 0%nat.
Proof.
  induction 1 as [|e tr [_ Ha] _ IH]; [reflexivity|].
  rewrite count_cons, Ha. exact IH.
Qed.


End TraceFacts.

(** ** One pass of the adaptation loop *)
Section PassFacts.
Context `{E : Adapt.Env}.
Import ConvergenceTracker.

Lemma quiet_getitem out key : quiet (events (Adapt.getitem out key)).
Proof. unfold Adapt.getitem. destruct (out !! key); constructor. Qed.

Lemma quiet_as_func v : quiet (events (Adapt.as_func v)).
Proof. destruct v; constructor. Qed.

Lemma quiet_assert b : quiet (events (assert_ b)).
Proof. destruct b; constructor. Qed.

Lemma quiet_bind {A B} (m : script A) (k : A -> script B) :
  quiet (events m) -> (forall x, quiet (events (k x))) ->
  quiet (events (m ≫= k)).
Proof.
  intros Hm Hk. rewrite events_bind. apply quiet_app; [exact Hm|].
  destruct (outcome m); [apply Hk|constructor].
Qed.

Lemma quiet_emit (e : Event) :
  is_iter e = false -> is_adapt e = false -> quiet (events (emit e)).
Proof. intros Hi Ha. repeat constructor; assumption. Qed.

Lemma quiet_save_features a suffix items :
  quiet (events (Adapt.save_features a suffix items)).
Proof.
  induction items as [|kv items IH]; [constructor|].
  cbn [Adapt.save_features foldr]. apply quiet_bind.
  - apply quiet_emit; reflexivity.
  - intros _. exact IH.
Qed.

Ltac quiet_steps :=
  repeat first
    [ apply quiet_getitem | apply quiet_as_func | apply quiet_assert
    | apply quiet_save_features
    | apply quiet_emit; reflexivity
    | apply quiet_nil
    | apply quiet_bind; [|intros ?] ].

Lemma quiet_harvest a suffix fwd adj_sol dwr :
  quiet (events (Adapt.harvest a suffix fwd adj_sol dwr)).
Proof. unfold Adapt.harvest. quiet_steps. Qed.

Lemma quiet_write_fields a tc adj_sol :
  quiet (events (Adapt.write_fields a tc adj_sol)).
Proof.
  unfold Adapt.write_fields. destruct (Adapt.skip_outputs a); quiet_steps.
Qed.

Lemma quiet_process_metric p0metric target_ramp :
  quiet (events (Adapt.process_metric p0metric target_ramp)).
Proof. unfold Adapt.process_metric. quiet_steps. Qed.

Lemma one_cycle_bind {A} fp (m : script A) (k : A -> script (Adapt.Ctl * Adapt.State)) :
  quiet (events m) ->
  (forall x, outcome m = Py.Ok x -> Adapt.one_cycle fp (k x)) ->
  Adapt.one_cycle fp (m ≫= k).
Proof.
  intros Hm Hk. unfold Adapt.one_cycle.
  rewrite events_bind, outcome_bind, iterations_app, count_app.
  rewrite (quiet_iterations _ Hm), (quiet_count_adapt _ Hm).
  destruct (outcome m) as [x|e].
  - exact (Hk x eq_refl).
  - cbn. repeat split; try lia; discriminate.
Qed.

Lemma one_cycle_break fp st :
  fp_iteration (Adapt.ct st) = fp ->
  Adapt.one_cycle fp (mret (Adapt.Break, st)).
Proof.
  intros Hfp. repeat split; cbn; try lia.
  - inversion H; subst; reflexivity.
  - inversion H; subst; discriminate.
Qed.

Lemma one_cycle_adapt_and_check a tc st metric :
  Adapt.one_cycle (fp_iteration (Adapt.ct st))
    (Adapt.adapt_and_check a tc st metric).
Proof.
  unfold Adapt.adapt_and_check.
  pose proof (check_elements_keeps_counter (Adapt.ct st)
                (Fem.num_cells (Adapt.adapt (Adapt.mesh st) metric))) as [Hfp _].
  destruct (check_elements _ _) as [conv ct1]. cbn in Hfp.
  pose proof (check_maxiter_keeps_counter ct1) as [Hfp2 _].
  destruct (check_maxiter ct1) as [sig ct2]. cbn in Hfp2.
  unfold Adapt.one_cycle.
  destruct (Adapt.skip_outputs a), conv; cbn;
    (split; [reflexivity|]); (split; [lia|]);
    intros ctl st' Heq; inversion Heq; subst; cbn;
    (split; [congruence|]); intros; reflexivity.
Qed.

Lemma body_one_cycle a tc st :
  Adapt.one_cycle (fp_iteration (Adapt.solve a st).2) (Adapt.body a tc st).
Proof.
  unfold Adapt.body.
  apply one_cycle_bind; [quiet_steps|intros _ _].
  destruct (Adapt.solve a st) as [out ct1]. cbn [snd].
  apply one_cycle_bind; [quiet_steps|intros qoi _].
  apply one_cycle_bind; [quiet_steps|intros forward _].
  apply one_cycle_bind; [quiet_steps|intros _ _].
  apply one_cycle_bind; [quiet_steps|intros fwd _].
  apply one_cycle_bind; [quiet_steps|intros _ _].
  destruct (negb (Adapt.contains out "adjoint"));
    [apply one_cycle_break; reflexivity|].
  apply one_cycle_bind; [quiet_steps|intros estimator _].
  apply one_cycle_bind; [quiet_steps|intros _ _].
  destruct (negb (Adapt.contains out "metric"));
    [apply one_cycle_break; reflexivity|].
  apply one_cycle_bind; [quiet_steps|intros adj_sol _].
  apply one_cycle_bind; [quiet_steps|intros dwr _].
  apply one_cycle_bind; [quiet_steps|intros p0metric _].
  apply one_cycle_bind; [apply quiet_write_fields|intros _ _].
  apply one_cycle_bind.
  { destruct (Adapt.optimise a); [apply quiet_nil|apply quiet_harvest]. }
  intros _ _.
  apply one_cycle_bind; [apply quiet_process_metric|intros metric _].
  apply one_cycle_adapt_and_check.
Qed.

End PassFacts.

(** ** The loop of [run_adapt.py] *)
Section LoopFacts.
Context `{E : Adapt.Env}.
Import ConvergenceTracker.


End LoopFacts.


(** When the run ends normally, the final report is what the loop's
    events are followed by: the line naming the index plus one and the
    tracker's reason, and the line with the total time. *)
Lemma run_loop_report `{E : Adapt.Env} a tc st st' :
  outcome (Adapt.run_loop a tc st) = Py.Ok st' ->
  outcome (Adapt.loop a tc
             (seqZ 0 (ConvergenceTracker.maxiter (Adapt.ct st) + 1)) st)
  = Py.Ok st'
  /\ events (Adapt.run_loop a tc st)
     = events (Adapt.loop a tc
                 (seqZ 0 (ConvergenceTracker.maxiter (Adapt.ct st) + 1)) st)
       ++ [EPrint (MTerminated
                     (ConvergenceTracker.fp_iteration (Adapt.ct st') + 1)
                     (ConvergenceTracker.converged_reason (Adapt.ct st')));
           EPrint MTotalTime].
Proof.
  unfold Adapt.run_loop. rewrite events_bind, outcome_bind.
  destruct (outcome (Adapt.loop _ _ _ _)) as [st1|e]; [|discriminate].
  cbn. intros [= ->]. split; reflexivity.
Qed.





(** ** Result bundles with missing keys *)

(** C2, as the code has it.  For a bundle that holds [qoi] and a forward
    solution: when [adjoint] is missing the pass prints the quantity of
    interest and the degree-of-freedom count and leaves the loop, with no
    feature harvesting, no metric processing and no adaptation; when
    [adjoint] and [estimator] are present and [metric] is missing it does
    the same after printing the estimator as well.  The other two rows of
    the table are exceptions: [adjoint] without [estimator], and a bundle
    with [metric] but without [dwr], raise [KeyError]. *)
Theorem body_stops_on_missing_adjoint_or_metric `{E : Adapt.Env}
    (a : Adapt.Args) (tc : Adapt.TestCase) (st : Adapt.State)
    (out : gmap string Value) (ct1 : ConvergenceTracker.t)
    (q : Value) (f : Fem.Function) :
  Adapt.solve a st = (out, ct1) ->
  out !! "qoi" = Some q ->
  out !! "forward" = Some (VFunc f) ->
  let st1 := {| Adapt.mesh := Adapt.mesh st; Adapt.ct := ct1;
                Adapt.fwd_sol := Some f; Adapt.kw_init := Adapt.kw_init st |} in
  let report := [EGoMetric (Adapt.mesh st);
                 EPrint (MQoI q (Some Adapt.qoi_unit));
                 EPrint (MDoF (Py.sum (Fem.dof_count (Fem.function_space f))))] in
  (out !! "adjoint" = None ->
     Adapt.body a tc st = Run report (Py.Ok (Adapt.Break, st1)))
  /\ (forall adj e, out !! "adjoint" = Some adj -> out !! "estimator" = Some e ->
        out !! "metric" = None ->
        Adapt.body a tc st
        = Run (report ++ [EPrint (MEstimator e)]) (Py.Ok (Adapt.Break, st1)))
  /\ (forall adj, out !! "adjoint" = Some adj -> out !! "estimator" = None ->
        Adapt.body a tc st = Run report (Py.Raise (Py.KeyError "estimator")))
  /\ (forall adj e p0, out !! "adjoint" = Some adj -> out !! "estimator" = Some e ->
        out !! "metric" = Some p0 -> out !! "dwr" = None ->
        Adapt.body a tc st
        = Run (report ++ [EPrint (MEstimator e)]) (Py.Raise (Py.KeyError "dwr"))).
Proof.
  intros Hsolve Hqoi Hfwd st1 report.
  unfold Adapt.body. rewrite Hsolve.
  unfold Adapt.getitem, Adapt.contains. rewrite Hqoi, Hfwd.
  repeat split.
  - intros ->. reflexivity.
  - intros adj e -> -> ->. reflexivity.
  - intros adj -> ->. reflexivity.
  - intros adj e p0 -> -> -> ->. reflexivity.
Qed.

(** The statement above on the sample bundle without its [adjoint] key. *)
Lemma body_stops_on_missing_adjoint_or_metric_witness :
  outcome
    (@Adapt.body
       (Scenario.adapt_env
          (fun m => delete "adjoint" (Scenario.full_bundle [Py.Finite 1] m)))
       Scenario.adapt_args (Adapt.TCInt 1)
       (@Adapt.initial
          (Scenario.adapt_env
             (fun m => delete "adjoint" (Scenario.full_bundle [Py.Finite 1] m)))
          Scenario.adapt_args (Adapt.TCInt 1)))
  = Py.Ok (Adapt.Break,
           {| Adapt.mesh := Scenario.coarse;
              Adapt.ct := ConvergenceTracker.new 1 (1 # 100);
              Adapt.fwd_sol := Some (Scenario.solution_on Scenario.coarse);
              Adapt.kw_init := false |}).
Proof.
  pose proof (proj1
    (@body_stops_on_missing_adjoint_or_metric
       (Scenario.adapt_env
          (fun m => delete "adjoint" (Scenario.full_bundle [Py.Finite 1] m)))
       Scenario.adapt_args (Adapt.TCInt 1)
       (@Adapt.initial
          (Scenario.adapt_env
             (fun m => delete "adjoint" (Scenario.full_bundle [Py.Finite 1] m)))
          Scenario.adapt_args (Adapt.TCInt 1))
       (delete "adjoint" (Scenario.full_bundle [Py.Finite 1] Scenario.coarse))
       (ConvergenceTracker.new 1 (1 # 100))
       (VFloat (Py.Finite 1)) (Scenario.solution_on Scenario.coarse)
       eq_refl eq_refl eq_refl) eq_refl) as Hbody.
  rewrite Hbody. reflexivity.
Defined.

(** C2, as the claim words it, fails: the sample bundle without its
    [estimator] key is missing one of the optional keys, and the pass
    ends in [KeyError] instead of leaving the loop. *)
Lemma missing_estimator_raises :
  let out := delete "estimator"
               (Scenario.full_bundle [Py.Finite 1] Scenario.coarse) in
  let E := Scenario.adapt_env
             (fun m => delete "estimator" (Scenario.full_bundle [Py.Finite 1] m)) in
  out !! "estimator" = None
  /\ (@Adapt.solve E Scenario.adapt_args
        (@Adapt.initial E Scenario.adapt_args (Adapt.TCInt 1))).1 = out
  /\ outcome (@Adapt.body E Scenario.adapt_args (Adapt.TCInt 1)
                (@Adapt.initial E Scenario.adapt_args (Adapt.TCInt 1)))
     = Py.Raise (Py.KeyError "estimator").
Proof.
  cbv zeta. split; [reflexivity|]. split; [reflexivity|].
  vm_compute. reflexivity.
Qed.

(** ** Harvesting features and targets *)
Section HarvestFacts.
Context `{E : Adapt.Env}.

Lemma save_features_run a suffix items :
  Adapt.save_features a suffix items
  = Run ((fun kv => ESave (Adapt.feature_path a kv.1 suffix)
                      (float_array kv.2)) <$> items)
        (Py.Ok tt).
Proof.
  induction items as [|kv items IH]; [reflexivity|].
  cbn [Adapt.save_features foldr fmap list_fmap].
  change (foldr _ _ items) with (Adapt.save_features a suffix items).
  rewrite IH. reflexivity.
Qed.

Lemma harvest_nan a suffix fwd adj_sol d :
  Py.any_isnan (Fem.flatten d) = true ->
  Adapt.harvest a suffix fwd adj_sol (VFunc d)
  = Run [EFeatures] (Py.Raise Py.AssertionError).
Proof.
  intros Hnan. unfold Adapt.harvest.
  cbn [mbind script_bind bind emit mret script_ret ret events outcome
       Adapt.as_func app].
  rewrite Hnan. reflexivity.
Qed.

Lemma harvest_clean a suffix fwd adj_sol d :
  Py.any_isnan (Fem.flatten d) = false ->
  Adapt.harvest a suffix fwd adj_sol (VFunc d)
  = Run (EFeatures
         :: ((fun kv => ESave (Adapt.feature_path a kv.1 suffix)
                          (float_array kv.2))
               <$> map_to_list (Adapt.extract_features fwd adj_sol))
         ++ [ESave (Adapt.target_path a suffix) (float_array (Fem.flatten d))])
        (Py.Ok tt).
Proof.
  intros Hnan. unfold Adapt.harvest.
  cbn [mbind script_bind bind emit mret script_ret ret events outcome
       Adapt.as_func app].
  rewrite Hnan, save_features_run. reflexivity.
Qed.

Lemma all_finite_no_nan (target : list Py.float) :
  forallb Py.isfinite target = true -> Py.any_isnan target = false.
Proof.
  induction target as [|x target IH]; [reflexivity|].
  cbn. destruct x; cbn; try discriminate. exact IH.
Qed.

Lemma write_fields_function a tc adj :
  outcome (Adapt.write_fields a tc (VFunc adj)) = Py.Ok tt
  /\ count is_save (events (Adapt.write_fields a tc (VFunc adj))) = 0%nat
  /\ count is_adapt (events (Adapt.write_fields a tc (VFunc adj))) = 0%nat.
Proof.
  unfold Adapt.write_fields.
  destruct (Adapt.skip_outputs a); repeat split; reflexivity.
Qed.

Lemma adapt_and_check_returns a tc st metric :
  exists x, outcome (Adapt.adapt_and_check a tc st metric) = Py.Ok x.
Proof.
  unfold Adapt.adapt_and_check.
  destruct (ConvergenceTracker.check_elements _ _) as [[|] ct1];
    [|destruct (ConvergenceTracker.check_maxiter ct1) as [sig ct2]];
    destruct (Adapt.skip_outputs a); eexists; reflexivity.
Qed.

End HarvestFacts.

(** C3, as the code has it.  In a pass that harvests (the optimise flag
    is off) on a complete bundle: a target array with a NaN in it ends
    the run with [AssertionError] before [np.save] is called for any
    feature or for the target, and before the mesh is adapted; a target
    array without NaN lets the pass go on, and [np.save] is called for
    the target and for every feature.  An array whose values are all
    finite has no NaN; an array with an infinity and no NaN has none
    either, and is saved like any other. *)
Theorem nan_target_aborts_before_saving `{E : Adapt.Env}
    (a : Adapt.Args) (tc : Adapt.TestCase) (st : Adapt.State)
    (out : gmap string Value) (ct1 : ConvergenceTracker.t)
    (q e p0 : Value) (f adj d : Fem.Function) :
  Adapt.solve a st = (out, ct1) ->
  out !! "qoi" = Some q ->
  out !! "forward" = Some (VFunc f) ->
  out !! "estimator" = Some e ->
  out !! "adjoint" = Some (VFunc adj) ->
  out !! "dwr" = Some (VFunc d) ->
  out !! "metric" = Some p0 ->
  Adapt.optimise a = false ->
  (Py.any_isnan (Fem.flatten d) = true ->
     outcome (Adapt.body a tc st) = Py.Raise Py.AssertionError
     /\ count is_save (events (Adapt.body a tc st)) = 0%nat
     /\ count is_adapt (events (Adapt.body a tc st)) = 0%nat)
  /\ (Py.any_isnan (Fem.flatten d) = false ->
        (exists x, outcome (Adapt.body a tc st) = Py.Ok x)
        /\ ESave (Adapt.target_path a (Adapt.suffix a tc st))
             (float_array (Fem.flatten d)) ∈ events (Adapt.body a tc st)
        /\ forall key value,
             Adapt.extract_features f (VFunc adj) !! key = Some value ->
             ESave (Adapt.feature_path a key (Adapt.suffix a tc st))
               (float_array value) ∈ events (Adapt.body a tc st))
  /\ (forallb Py.isfinite (Fem.flatten d) = true ->
        Py.any_isnan (Fem.flatten d) = false).
Proof.
  intros Hsolve Hqoi Hfwd Hest Hadj Hdwr Hmetric Hopt.
  destruct (write_fields_function a tc adj) as (Hw & Hwsave & Hwadapt).
  assert (Hbody : Adapt.body a tc st
    = Run ([EGoMetric (Adapt.mesh st);
            EPrint (MQoI q (Some Adapt.qoi_unit));
            EPrint (MDoF (Py.sum (Fem.dof_count (Fem.function_space f))));
            EPrint (MEstimator e)]
           ++ events (Adapt.write_fields a tc (VFunc adj)
                      ≫= fun _ =>
                        Adapt.harvest a (Adapt.suffix a tc st) f (VFunc adj) (VFunc d)
                        ≫= fun _ =>
                          Adapt.process_metric p0 (Adapt.target_ramp a st)
                          ≫= fun metric =>
                            Adapt.adapt_and_check a tc
                              {| Adapt.mesh := Adapt.mesh st; Adapt.ct := ct1;
                                 Adapt.fwd_sol := Some f;
                                 Adapt.kw_init := Adapt.transfer a || Adapt.kw_init st |}
                              metric))
          (outcome (Adapt.write_fields a tc (VFunc adj)
                      ≫= fun _ =>
                        Adapt.harvest a (Adapt.suffix a tc st) f (VFunc adj) (VFunc d)
                        ≫= fun _ =>
                          Adapt.process_metric p0 (Adapt.target_ramp a st)
                          ≫= fun metric =>
                            Adapt.adapt_and_check a tc
                              {| Adapt.mesh := Adapt.mesh st; Adapt.ct := ct1;
                                 Adapt.fwd_sol := Some f;
                                 Adapt.kw_init := Adapt.transfer a || Adapt.kw_init st |}
                              metric))).
  { unfold Adapt.body. rewrite Hsolve.
    unfold Adapt.getitem, Adapt.contains.
    rewrite Hqoi, Hfwd, Hest, Hadj, Hdwr, Hmetric, Hopt. reflexivity. }
  rewrite Hbody. cbn [events outcome].
  rewrite events_bind, outcome_bind, Hw, events_bind, outcome_bind.
  split; [|split].
  - intros Hnan. rewrite (harvest_nan _ _ _ _ _ Hnan). cbn [events outcome].
    split; [reflexivity|].
    rewrite !count_app, Hwsave, Hwadapt. split; reflexivity.
  - intros Hnan. rewrite (harvest_clean _ _ _ _ _ Hnan). cbn [events outcome].
    split; [|split].
    + rewrite outcome_bind. unfold Adapt.process_metric.
      cbn [mbind script_bind bind emit mret script_ret ret events outcome].
      apply adapt_and_check_returns.
    + rewrite !elem_of_app. right. right. left.
      rewrite elem_of_cons, elem_of_app. right. right.
      apply list_elem_of_here.
    + intros key value Hkv.
      rewrite !elem_of_app. right. right. left.
      rewrite elem_of_cons, elem_of_app. right. left.
      apply (list_elem_of_fmap_2'
               (fun kv => ESave (Adapt.feature_path a kv.1 (Adapt.suffix a tc st))
                            (float_array kv.2)) _ (key, value)).
      * apply elem_of_map_to_list. exact Hkv.
      * reflexivity.
  - apply all_finite_no_nan.
Qed.

(** The statement above on the sample bundle whose indicator is NaN. *)
Lemma nan_target_aborts_before_saving_witness :
  outcome
    (@Adapt.body (Scenario.adapt_env (Scenario.full_bundle [Py.NaN]))
       Scenario.adapt_args (Adapt.TCInt 1)
       (@Adapt.initial (Scenario.adapt_env (Scenario.full_bundle [Py.NaN]))
          Scenario.adapt_args (Adapt.TCInt 1)))
  = Py.Raise Py.AssertionError.
Proof.
  refine (proj1 (proj1
    (@nan_target_aborts_before_saving
       (Scenario.adapt_env (Scenario.full_bundle [Py.NaN]))
       Scenario.adapt_args (Adapt.TCInt 1)
       (@Adapt.initial (Scenario.adapt_env (Scenario.full_bundle [Py.NaN]))
          Scenario.adapt_args (Adapt.TCInt 1))
       (Scenario.full_bundle [Py.NaN] Scenario.coarse)
       (ConvergenceTracker.new 1 (1 # 100))
       (VFloat (Py.Finite 1)) (VFloat (Py.Finite (1 # 2)))
       (VFunc (Scenario.solution_on Scenario.coarse))
       (Scenario.solution_on Scenario.coarse)
       (Scenario.solution_on Scenario.coarse)
       {| Fem.function_space := {| Fem.dof_count := [1] |};
          Fem.split := [[Py.NaN]] |}
       eq_refl eq_refl eq_refl eq_refl eq_refl eq_refl eq_refl eq_refl)
    eq_refl)).
Defined.

(** C3, as the claim words it, fails: a target array that holds an
    infinity is not finite, yet the pass does not abort and saves the
    feature and the target. *)
Lemma infinite_target_is_saved :
  forallb Py.isfinite [Py.PosInf] = false
  /\ outcome
       (@Adapt.harvest (Scenario.adapt_env (Scenario.full_bundle [Py.PosInf]))
          Scenario.adapt_args "1_GOanisotropic_0"
          (Scenario.solution_on Scenario.coarse)
          (VFunc (Scenario.solution_on Scenario.coarse))
          (VFunc {| Fem.function_space := {| Fem.dof_count := [1] |};
                    Fem.split := [[Py.PosInf]] |}))
     = Py.Ok tt
  /\ (exists x,
        outcome
          (@Adapt.body (Scenario.adapt_env (Scenario.full_bundle [Py.PosInf]))
             Scenario.adapt_args (Adapt.TCInt 1)
             (@Adapt.initial (Scenario.adapt_env (Scenario.full_bundle [Py.PosInf]))
                Scenario.adapt_args (Adapt.TCInt 1)))
        = Py.Ok x)
  /\ List.filter is_save
       (events
          (@Adapt.body (Scenario.adapt_env (Scenario.full_bundle [Py.PosInf]))
             Scenario.adapt_args (Adapt.TCInt 1)
             (@Adapt.initial (Scenario.adapt_env (Scenario.full_bundle [Py.PosInf]))
                Scenario.adapt_args (Adapt.TCInt 1))))
     = [ESave "stokes/data/feature_estimator_coarse_1_GOanisotropic_0"
          [VFloat (Py.Finite 1)];
        ESave "stokes/data/target_1_GOanisotropic_0" [VFloat Py.PosInf]].
Proof.
  split; [reflexivity|]. split; [vm_compute; reflexivity|].
  split; [eexists; vm_compute; reflexivity|].
  vm_compute. reflexivity.
Qed.

(** ** Carrying the forward solution over *)
Section ProjFacts.
Context `{E : Adapt.Env}.

Lemma project_components_lookup ic :
  forall src d, Adapt.project_components ic src = Py.Ok d ->
    length d = length ic
    /\ (forall i c_init c, ic !! i = Some c_init -> src !! i = Some c ->
          exists x, Adapt.project_component c_init c = Py.Ok x
                    /\ d !! i = Some x)
    /\ (forall i, src !! i = None -> d !! i = ic !! i).
Proof.
  induction ic as [|c_init ic IH]; intros src d Hd.
  - destruct src; inversion Hd; subst.
    all: repeat split; intros; try discriminate; reflexivity.
  - destruct src as [|c src].
    + inversion Hd; subst. repeat split; intros; try discriminate; reflexivity.
    + cbn in Hd.
      destruct (Adapt.project_component c_init c) as [x|e] eqn:Hx;
        [|discriminate].
      destruct (Adapt.project_components ic src) as [rest|e] eqn:Hrest;
        [|discriminate].
      inversion Hd; subst d.
      destruct (IH src rest Hrest) as (Hlen & Hin & Hout).
      split; [cbn; lia|]. split.
      * intros [|i] c_init' c' Hi Hs; cbn in *.
        -- inversion Hi; inversion Hs; subst. exists x. split; [exact Hx|reflexivity].
        -- exact (Hin i c_init' c' Hi Hs).
      * intros [|i] Hs; cbn in *; [discriminate|]. exact (Hout i Hs).
Qed.


Lemma adapt_and_check_keeps a tc st metric ctl st' :
  outcome (Adapt.adapt_and_check a tc st metric) = Py.Ok (ctl, st') ->
  Adapt.fwd_sol st' = Adapt.fwd_sol st /\ Adapt.kw_init st' = Adapt.kw_init st.
Proof.
  unfold Adapt.adapt_and_check.
  destruct (ConvergenceTracker.check_elements _ _) as [[|] ct1];
    [|destruct (ConvergenceTracker.check_maxiter ct1) as [sig ct2]];
    destruct (Adapt.skip_outputs a); cbn; intros Heq;
    inversion Heq; subst; split; reflexivity.
Qed.

(** A pass that asks for another one went through the whole body. *)
Lemma body_continue a tc st st' :
  outcome (Adapt.body a tc st) = Py.Ok (Adapt.Continue, st') ->
  exists f metric,
    (Adapt.solve a st).1 !! "forward" = Some (VFunc f)
    /\ outcome (Adapt.adapt_and_check a tc
                  {| Adapt.mesh := Adapt.mesh st;
                     Adapt.ct := (Adapt.solve a st).2;
                     Adapt.fwd_sol := Some f;
                     Adapt.kw_init := Adapt.transfer a || Adapt.kw_init st |}
                  metric)
       = Py.Ok (Adapt.Continue, st').
Proof.
  unfold Adapt.body. destruct (Adapt.solve a st) as [out ct1]. cbn [fst snd].
  unfold Adapt.getitem, Adapt.contains.
  intros Hout.
  apply outcome_bind_inv in Hout as (_ & _ & Hout).
  destruct (out !! "qoi") as [q|]; [|discriminate].
  apply outcome_bind_inv in Hout as (? & [= <-] & Hout).
  destruct (out !! "forward") as [[| |f|]|]; try discriminate.
  apply outcome_bind_inv in Hout as (? & [= <-] & Hout).
  apply outcome_bind_inv in Hout as (_ & _ & Hout).
  apply outcome_bind_inv in Hout as (? & [= <-] & Hout).
  apply outcome_bind_inv in Hout as (_ & _ & Hout).
  destruct (out !! "adjoint") as [adj|]; [|discriminate]. cbn [negb] in Hout.
  destruct (out !! "estimator") as [e|]; [|discriminate].
  apply outcome_bind_inv in Hout as (? & [= <-] & Hout).
  apply outcome_bind_inv in Hout as (_ & _ & Hout).
  destruct (out !! "metric") as [p0|]; [|discriminate]. cbn [negb] in Hout.
  apply outcome_bind_inv in Hout as (? & [= <-] & Hout).
  destruct (out !! "dwr") as [dwr|]; [|discriminate].
  apply outcome_bind_inv in Hout as (? & [= <-] & Hout).
  apply outcome_bind_inv in Hout as (? & [= <-] & Hout).
  apply outcome_bind_inv in Hout as (_ & _ & Hout).
  apply outcome_bind_inv in Hout as (_ & _ & Hout).
  apply outcome_bind_inv in Hout as (metric & _ & Hout).
  exists f, metric. split; [reflexivity|exact Hout].
Qed.

End ProjFacts.



(** ** Running out of iterations *)
Section RunOut.
Context `{E : Adapt.Env}.
Import ConvergenceTracker.

(** What a pass that asks for another one has done to the tracker:
    index and bound are kept; at the bound the max-iteration reason is
    recorded, below it the reason is left alone. *)
Lemma adapt_and_check_tracker a tc st metric st' :
  outcome (Adapt.adapt_and_check a tc st metric) = Py.Ok (Adapt.Continue, st') ->
  fp_iteration (Adapt.ct st') = fp_iteration (Adapt.ct st)
  /\ maxiter (Adapt.ct st') = maxiter (Adapt.ct st)
  /\ (fp_iteration (Adapt.ct st) = maxiter (Adapt.ct st) ->
      converged_reason (Adapt.ct st') = Some MaxIterationsReached)
  /\ (fp_iteration (Adapt.ct st) <> maxiter (Adapt.ct st) ->
      converged_reason (Adapt.ct st') = converged_reason (Adapt.ct st)).
Proof.
  unfold Adapt.adapt_and_check, check_elements, check_maxiter.
  destruct (elements_old (Adapt.ct st)) as [old|];
    [destruct (relative_change_below _ _ _)|];
    cbn [fp_iteration maxiter];
    destruct (Z.eqb_spec (fp_iteration (Adapt.ct st)) (maxiter (Adapt.ct st)));
    destruct (Adapt.skip_outputs a); cbn; intros Heq;
    inversion Heq; subst; cbn; repeat split; intros; congruence.
Qed.

Lemma body_continue_tracker a tc st st' :
  Adapt.go_metric_keeps_index -> Adapt.go_metric_keeps_maxiter ->
  outcome (Adapt.body a tc st) = Py.Ok (Adapt.Continue, st') ->
  fp_iteration (Adapt.ct st') = fp_iteration (Adapt.ct st)
  /\ maxiter (Adapt.ct st') = maxiter (Adapt.ct st)
  /\ (fp_iteration (Adapt.ct st) = maxiter (Adapt.ct st) ->
      converged_reason (Adapt.ct st') = Some MaxIterationsReached)
  /\ (fp_iteration (Adapt.ct st) <> maxiter (Adapt.ct st) ->
      converged_reason (Adapt.ct st') = converged_reason (Adapt.solve a st).2).
Proof.
  intros Hidx Hmax Hcont.
  destruct (body_continue a tc st st' Hcont) as (f & metric & _ & Hcheck).
  destruct (adapt_and_check_tracker _ _ _ _ _ Hcheck) as (Hfp & Hm & Hat & Hbefore).
  cbn [Adapt.ct] in *. unfold Adapt.solve in *.
  rewrite Hidx in *. rewrite Hmax in *. auto.
Qed.

(** A loop that uses up a range ending at the bound ends normally with
    the max-iteration reason. *)
Lemma loop_runs_out a tc :
  Adapt.go_metric_keeps_index -> Adapt.go_metric_keeps_maxiter ->
  forall range st i,
    runs_out a tc range st = true ->
    last range = Some i -> i = maxiter (Adapt.ct st) ->
    exists st',
      outcome (Adapt.loop a tc range st) = Py.Ok st'
      /\ fp_iteration (Adapt.ct st') = i
      /\ maxiter (Adapt.ct st') = maxiter (Adapt.ct st)
      /\ converged_reason (Adapt.ct st') = Some MaxIterationsReached
      /\ iterations (events (Adapt.loop a tc range st)) = range.
Proof.
  intros Hidx Hmax. induction range as [|j range IH]; intros st i Hrun Hlast Hi;
    [discriminate|].
  cbn [runs_out] in Hrun. cbn [Adapt.loop].
  rewrite !events_bind, !outcome_bind. cbn [emit events outcome app].
  destruct (body_one_cycle a tc (Adapt.bind_target j st)) as (Hiter & _).
  rewrite iterations_cons, iterations_app, Hiter. cbn [app].
  destruct (outcome (Adapt.body a tc (Adapt.bind_target j st)))
    as [[[|] st1]|e] eqn:Hbody; try discriminate.
  destruct (body_continue_tracker _ _ _ _ Hidx Hmax Hbody)
    as (Hfp & Hm & Hat & _).
  cbn [Adapt.bind_target Adapt.ct set_fp_iteration fp_iteration maxiter] in *.
  destruct range as [|j' range].
  - cbn in Hlast. injection Hlast as <-. exists st1. cbn.
    repeat split; auto.
  - destruct (IH st1 i Hrun Hlast ltac:(congruence))
      as (st' & Hout & Hfp' & Hm' & Hreason & Hits).
    exists st'. rewrite Hits. repeat split; auto. congruence.
Qed.

Lemma last_seqZ (m : Z) : 0 <= m -> last (seqZ 0 (m + 1)) = Some m.
Proof.
  intros Hm. rewrite last_lookup, length_seqZ.
  rewrite lookup_seqZ. split; lia.
Qed.

End RunOut.

(** C6. [check_maxiter] on the tracker as the specification describes
    it signals exactly when the iteration index equals the configured
    maximum and never before; when it signals, the reason it exposes is
    the max-iteration one, which differs from the two convergence
    reasons.  In [run_adapt.py] the call on line 144 does not raise and
    what it returns is discarded: a pass ends normally, with the
    max-iteration reason recorded when its index has reached the maximum
    and with the element-count reason when it ends on convergence
    instead; in a pass below the maximum that asks for another one the
    reason stays what the solve/estimate service left.  When every pass
    asks for another one, the loop stops because its range is used up:
    the run ends normally after [maxiter + 1] passes, the tracker holds
    the max-iteration reason, and the final report on line 145 names
    that number of passes and that reason; whenever the run ends
    normally, the report names the reason the tracker holds.  The
    statements about whole passes take a solve/estimate service that
    leaves the index and the bound of the tracker alone. *)
Theorem check_maxiter_exactly_at_maximum (ct : ConvergenceTracker.t) :
  ((ConvergenceTracker.check_maxiter ct).1 = true <->
     ConvergenceTracker.fp_iteration ct = ConvergenceTracker.maxiter ct)
  /\ (ConvergenceTracker.fp_iteration ct < ConvergenceTracker.maxiter ct ->
        ConvergenceTracker.check_maxiter ct = (false, ct))
  /\ ((ConvergenceTracker.check_maxiter ct).1 = true ->
        ConvergenceTracker.converged_reason (ConvergenceTracker.check_maxiter ct).2
        = Some ConvergenceTracker.MaxIterationsReached)
  /\ ConvergenceTracker.MaxIterationsReached <> ConvergenceTracker.ElementCountConverged
  /\ ConvergenceTracker.MaxIterationsReached <> ConvergenceTracker.QoIConverged
  /\ (forall (E : Adapt.Env) a tc st metric, Adapt.ct st = ct ->
        exists ctl st',
          outcome (Adapt.adapt_and_check a tc st metric) = Py.Ok (ctl, st')
          /\ (ctl = Adapt.Continue ->
              ConvergenceTracker.fp_iteration ct = ConvergenceTracker.maxiter ct ->
              ConvergenceTracker.converged_reason (Adapt.ct st')
              = Some ConvergenceTracker.MaxIterationsReached)
          /\ (ctl = Adapt.Break ->
              ConvergenceTracker.converged_reason (Adapt.ct st')
              = Some ConvergenceTracker.ElementCountConverged))
  /\ (forall (E : Adapt.Env) a tc st st',
        Adapt.ct st = ct ->
        Adapt.go_metric_keeps_index -> Adapt.go_metric_keeps_maxiter ->
        outcome (Adapt.body a tc st) = Py.Ok (Adapt.Continue, st') ->
        ConvergenceTracker.fp_iteration ct <> ConvergenceTracker.maxiter ct ->
        ConvergenceTracker.converged_reason (Adapt.ct st')
        = ConvergenceTracker.converged_reason (Adapt.solve a st).2)
  /\ (forall (E : Adapt.Env) a tc st,
        Adapt.ct st = ct ->
        Adapt.go_metric_keeps_index -> Adapt.go_metric_keeps_maxiter ->
        0 <= ConvergenceTracker.maxiter ct ->
        runs_out a tc (seqZ 0 (ConvergenceTracker.maxiter ct + 1)) st = true ->
        exists st',
          outcome (Adapt.run_loop a tc st) = Py.Ok st'
          /\ ConvergenceTracker.fp_iteration (Adapt.ct st')
             = ConvergenceTracker.maxiter ct
          /\ ConvergenceTracker.converged_reason (Adapt.ct st')
             = Some ConvergenceTracker.MaxIterationsReached
          /\ iterations (events (Adapt.run_loop a tc st))
             = seqZ 0 (ConvergenceTracker.maxiter ct + 1)
          /\ events (Adapt.run_loop a tc st)
             = events (Adapt.loop a tc
                         (seqZ 0 (ConvergenceTracker.maxiter ct + 1)) st)
               ++ [EPrint (MTerminated (ConvergenceTracker.maxiter ct + 1)
                             (Some ConvergenceTracker.MaxIterationsReached));
                   EPrint MTotalTime])
  /\ (forall (E : Adapt.Env) a tc st st',
        Adapt.ct st = ct ->
        outcome (Adapt.run_loop a tc st) = Py.Ok st' ->
        EPrint (MTerminated
                  (ConvergenceTracker.fp_iteration (Adapt.ct st') + 1)
                  (ConvergenceTracker.converged_reason (Adapt.ct st')))
        ∈ events (Adapt.run_loop a tc st)).
Proof.
  split; [|split; [|split; [|split; [|split; [|split; [|split; [|split]]]]]]];
    try discriminate.
  - unfold ConvergenceTracker.check_maxiter.
    destruct (Z.eqb_spec (ConvergenceTracker.fp_iteration ct)
                (ConvergenceTracker.maxiter ct)); cbn; split; auto; discriminate.
  - intros Hlt. unfold ConvergenceTracker.check_maxiter.
    destruct (Z.eqb_spec (ConvergenceTracker.fp_iteration ct)
                (ConvergenceTracker.maxiter ct)); [lia|reflexivity].
  - unfold ConvergenceTracker.check_maxiter.
    destruct (_ =? _); [reflexivity|discriminate].
  - intros E a tc st metric <-.
    unfold Adapt.adapt_and_check.
    pose proof (check_elements_keeps_counter (Adapt.ct st)
                  (Fem.num_cells (Adapt.adapt (Adapt.mesh st) metric))) as [Hfp Hmax].
    destruct (ConvergenceTracker.check_elements _ _) as [conv ct1] eqn:Hce.
    cbn in Hfp, Hmax.
    assert (Hreason : conv = true ->
              ConvergenceTracker.converged_reason ct1
              = Some ConvergenceTracker.ElementCountConverged).
    { unfold ConvergenceTracker.check_elements in Hce.
      destruct (ConvergenceTracker.elements_old (Adapt.ct st));
        [destruct (ConvergenceTracker.relative_change_below _ _ _)|];
        inversion Hce; subst; cbn; congruence. }
    destruct conv.
    + eexists _, _. split.
      * destruct (Adapt.skip_outputs a); reflexivity.
      * split; [discriminate|]. intros _. cbn. auto.
    + unfold ConvergenceTracker.check_maxiter. rewrite Hfp, Hmax.
      destruct (Z.eqb_spec (ConvergenceTracker.fp_iteration (Adapt.ct st))
                  (ConvergenceTracker.maxiter (Adapt.ct st))) as [Heq|Hne].
      * eexists _, _. split.
        { destruct (Adapt.skip_outputs a); reflexivity. }
        split; [reflexivity|discriminate].
      * eexists _, _. split.
        { destruct (Adapt.skip_outputs a); reflexivity. }
        split; [contradiction|discriminate].
  - intros E a tc st st' <- Hidx Hmax Hbody Hne.
    exact (proj2 (proj2 (proj2
             (body_continue_tracker a tc st st' Hidx Hmax Hbody))) Hne).
  - intros E a tc st <- Hidx Hmax Hpos Hrun.
    destruct (loop_runs_out a tc Hidx Hmax _ st _ Hrun
                (last_seqZ _ Hpos) eq_refl)
      as (st' & Hout & Hfp & _ & Hreason & Hits).
    assert (Hrl : outcome (Adapt.run_loop a tc st) = Py.Ok st').
    { unfold Adapt.run_loop. rewrite outcome_bind, Hout. reflexivity. }
    destruct (run_loop_report a tc st st' Hrl) as [_ Hev].
    exists st'. split; [exact Hrl|]. split; [exact Hfp|].
    split; [exact Hreason|]. rewrite Hev, Hfp, Hreason.
    split; [|reflexivity].
    rewrite iterations_app, Hits. apply app_nil_r.
  - intros E a tc st st' _ Hrl.
    destruct (run_loop_report a tc st st' Hrl) as [_ ->].
    apply elem_of_app. right. apply list_elem_of_here.
Qed.

(** The statement above on the sample run with [maxiter = 1]: both
    passes adapt and ask for another one, and the report names two
    iterations and the max-iteration reason. *)
Lemma check_maxiter_exactly_at_maximum_witness :
  exists st',
    outcome Scenario.adapt_run = Py.Ok st'
    /\ ConvergenceTracker.fp_iteration (Adapt.ct st') = 1
    /\ ConvergenceTracker.converged_reason (Adapt.ct st')
       = Some ConvergenceTracker.MaxIterationsReached
    /\ iterations (events Scenario.adapt_run) = [0; 1]
    /\ events Scenario.adapt_run
       = events (@Adapt.loop (Scenario.adapt_env (Scenario.full_bundle [Py.Finite 1]))
                   Scenario.adapt_args (Adapt.TCInt 1) [0; 1]
                   (@Adapt.initial
                      (Scenario.adapt_env (Scenario.full_bundle [Py.Finite 1]))
                      Scenario.adapt_args (Adapt.TCInt 1)))
         ++ [EPrint (MTerminated 2 (Some ConvergenceTracker.MaxIterationsReached));
             EPrint MTotalTime].
Proof.
  refine (proj1 (proj2 (proj2 (proj2 (proj2 (proj2 (proj2 (proj2
    (check_maxiter_exactly_at_maximum
       (ConvergenceTracker.new 1 (1 # 100))))))))))
    (Scenario.adapt_env (Scenario.full_bundle [Py.Finite 1]))
    Scenario.adapt_args (Adapt.TCInt 1)
    (@Adapt.initial (Scenario.adapt_env (Scenario.full_bundle [Py.Finite 1]))
       Scenario.adapt_args (Adapt.TCInt 1))
    eq_refl _ _ _ _).
  - intros mesh kw ct. reflexivity.
  - intros mesh kw ct. reflexivity.
  - cbn. lia.
  - vm_compute. reflexivity.
Defined.

(** ** The uniform refinement sweep *)
Section SweepFacts.
Context `{E : Uniform.Env}.

(** When the star import binds no name [qoi], the first level of any
    hierarchy is solved and then the sweep stops with [NameError],
    before anything is saved. *)
Lemma sweep_unbound_qoi model test_case i mesh rest acc :
  Uniform.star_qoi = None ->
  Uniform.sweep model test_case i (mesh :: rest) acc
  = Run [EPrint (MMesh i);
         EPrint (MElementCount (Some (Fem.num_cells mesh)));
         ESolve mesh; EAssemble mesh;
         EPrint (MQoI (VFloat (Uniform.assemble_qoi mesh
                                 (Uniform.get_solutions mesh))) None)]
        (Py.Raise (Py.NameError "qoi")).
Proof.
  intros Hqoi. cbn [Uniform.sweep]. unfold Uniform.name_qoi.
  rewrite Hqoi. reflexivity.
Qed.

(** When the star import does bind [qoi], that object is what every
    level appends; the value computed for the level is printed only. *)
Lemma sweep_bound_qoi model test_case v mh :
  Uniform.star_qoi = Some v ->
  forall i acc,
    exists arrays,
      outcome (Uniform.sweep model test_case i mh acc) = Py.Ok arrays
      /\ Uniform.qois arrays = Uniform.qois acc ++ replicate (length mh) v
      /\ length (Uniform.dofs arrays)
         = (length (Uniform.dofs acc) + length mh)%nat
      /\ length (Uniform.elements arrays)
         = (length (Uniform.elements acc) + length mh)%nat
      /\ count is_save (events (Uniform.sweep model test_case i mh acc))
         = (3 * length mh)%nat.
Proof.
  intros Hqoi. induction mh as [|mesh mh IH]; intros i acc.
  - exists acc. cbn. rewrite !app_nil_r. repeat split; lia.
  - cbn [Uniform.sweep]. unfold Uniform.name_qoi. rewrite Hqoi.
    cbn [mbind script_bind bind emit mret script_ret ret events outcome app].
    match goal with
    | |- context [Uniform.sweep model test_case (i + 1) mh ?acc'] =>
        destruct (IH (i + 1) acc') as (arrays & Hout & Hq & Hd & He & Hs)
    end.
    exists arrays.
    split; [exact Hout|]. cbn [Uniform.qois Uniform.dofs Uniform.elements] in *.
    split; [rewrite Hq, <- app_assoc; reflexivity|].
    rewrite !length_app in *. cbn [length] in *.
    split; [lia|]. split; [lia|].
    rewrite !count_cons. cbn [is_save]. rewrite Hs. lia.
Qed.

End SweepFacts.

(** C1, on the code.  [python run_uniform_refinement.py stokes 0
    -num_refinements 2] with no name [qoi] in the module namespace: the
    first level is solved and its quantity of interest printed, then line
    39 raises [NameError]; nothing has been saved and nothing is on
    disk, and levels 1 and 2 are never solved. *)
Theorem uniform_sweep_stops_at_first_level `{Py.Interpreter} :
  outcome (@Uniform.main Scenario.uniform_env _ Scenario.uniform_args)
  = Py.Raise (Py.NameError "qoi")
  /\ count is_save
       (events (@Uniform.main Scenario.uniform_env _ Scenario.uniform_args))
     = 0%nat
  /\ disk (events (@Uniform.main Scenario.uniform_env _ Scenario.uniform_args))
     = ∅
  /\ length (@Uniform.MeshHierarchy Scenario.uniform_env Scenario.coarse 2) = 3%nat
  /\ List.filter (fun e => match e with ESolve _ => true | _ => false end)
       (events (@Uniform.main Scenario.uniform_env _ Scenario.uniform_args))
     = [ESolve Scenario.coarse].
Proof.
  rewrite (uniform_main_plain Scenario.uniform_env Scenario.uniform_args
             eq_refl eq_refl).
  repeat split; vm_compute; reflexivity.
Qed.

(** * Further properties *)

(** ** Laws of the script monad *)
Section MonadLaws.
Context {A B C : Type}.

Lemma script_eta (m : script A) : Run (events m) (outcome m) = m.
Proof. destruct m; reflexivity. Qed.

Lemma bind_ret_l (x : A) (k : A -> script B) : mret x ≫= k = k x.
Proof. unfold mbind, script_bind, bind. cbn. destruct (k x); reflexivity. Qed.

Lemma bind_emit (e : Event) (k : unit -> script B) :
  emit e ≫= k = Run (e :: events (k tt)) (outcome (k tt)).
Proof. reflexivity. Qed.

Lemma bind_run (ev : list Event) (x : A) (k : A -> script B) :
  Run ev (Py.Ok x) ≫= k = Run (ev ++ events (k x)) (outcome (k x)).
Proof. reflexivity. Qed.

End MonadLaws.

(** ** Validation of the uniform sweep, completely *)

(** Lines 14-19 succeed exactly for an allowed model, an integer test
    case in 0..11 and a refinement count that is either left out (or
    empty), giving 5, or a non-negative integer; the values returned are
    the parsed ones. *)
Theorem uniform_validate_accepts `{Py.Interpreter} (a : Uniform.Args)
    (m : string) (t r : Z) :
  Uniform.validate a = Run [] (Py.Ok (m, t, r)) <->
  m = Uniform.model a
  /\ m ∈ ["stokes"; "turbine"]
  /\ Py.int (Uniform.test_case a) = Some t
  /\ 0 <= t < 12
  /\ ((Uniform.num_refinements a = None \/ Uniform.num_refinements a = Some "")
      /\ r = 5
      \/ exists s, Uniform.num_refinements a = Some s /\ s <> ""
                   /\ Py.int s = Some r /\ 0 <= r).
Proof.
  unfold Uniform.validate, Uniform.read_num_refinements, Script.int.
  destruct (decide (Uniform.model a ∈ ["stokes"; "turbine"])) as [Hm|Hm].
  2:{ rewrite (bool_decide_eq_false_2 _ Hm). cbn. split; [discriminate|].
      intros (-> & Hin & _). contradiction. }
  rewrite (bool_decide_eq_true_2 _ Hm).
  destruct (Py.int (Uniform.test_case a)) as [t'|]; cbn.
  2:{ split; [discriminate|]. intros (_ & _ & Hint & _). discriminate. }
  destruct (decide (t' ∈ seqZ 0 12)) as [Ht|Ht].
  2:{ rewrite (bool_decide_eq_false_2 _ Ht). cbn. split; [discriminate|].
      intros (_ & _ & [= ->] & Hr & _). exfalso. apply Ht, elem_of_seqZ. lia. }
  rewrite (bool_decide_eq_true_2 _ Ht). apply elem_of_seqZ in Ht.
  destruct (Uniform.num_refinements a) as [[|c s]|]; cbn.
  - split.
    + intros [= <- <- <-]. repeat split; auto; try lia.
    + intros (-> & _ & [= ->] & _ & [[_ ->]|(s & [= <-] & Hs & _)]);
        [reflexivity|contradiction].
  - destruct (Py.int (String c s)) as [r'|] eqn:Hint; cbn.
    + destruct (Z.leb_spec 0 r'); cbn.
      * split.
        -- intros [= <- <- <-]. repeat split; auto; try lia.
           all: try (right; exists (String c s); repeat split; auto; discriminate).
        -- intros (-> & _ & [= ->] & _ & [[[Hn|Hn] _]|(s' & [= <-] & _ & Hr & _)]);
             try discriminate.
           rewrite Hint in Hr. injection Hr as ->. reflexivity.
      * split; [discriminate|].
        intros (_ & _ & _ & _ & [[[Hn|Hn] _]|(s' & [= <-] & _ & Hr & Hpos)]);
          try discriminate.
        rewrite Hint in Hr. injection Hr as ->. lia.
    + split; [discriminate|].
      intros (_ & _ & _ & _ & [[[Hn|Hn] _]|(s' & [= <-] & _ & Hr & _)]);
        try discriminate. congruence.
  - split.
    + intros [= <- <- <-]. repeat split; auto; try lia.
    + intros (-> & _ & [= ->] & _ & [[_ ->]|(s & Hs & _)]);
        [reflexivity|discriminate].
Qed.

(** ** The uniform sweep level by level *)
Section SweepLevels.
Context `{E : Uniform.Env}.

Lemma sweep_app_at model test_case mh1 mh2 :
  forall i j acc, j = i + Z.of_nat (length mh1) ->
    Uniform.sweep model test_case i (mh1 ++ mh2) acc
    = Uniform.sweep model test_case i mh1 acc
      ≫= fun acc' => Uniform.sweep model test_case j mh2 acc'.
Proof.
  induction mh1 as [|mesh mh1 IH]; intros i j acc Hj.
  - cbn [app Uniform.sweep length] in *. rewrite bind_ret_l.
    replace j with i by lia. reflexivity.
  - cbn [app Uniform.sweep]. unfold Uniform.name_qoi.
    destruct Uniform.star_qoi as [v|]; [|reflexivity].
    cbn [mbind script_bind bind emit mret script_ret ret events outcome app].
    rewrite (IH (i + 1) j) by (cbn [length] in Hj; lia).
    rewrite events_bind, outcome_bind.
    match goal with
    | |- context [outcome (Uniform.sweep model test_case (i + 1) mh1 ?acc1)] =>
        destruct (outcome (Uniform.sweep model test_case (i + 1) mh1 acc1))
    end; cbn [app]; rewrite ?app_nil_r, <- ?app_assoc; reflexivity.
Qed.

End SweepLevels.

(** The sweep over a hierarchy is the sweep over its first levels followed
    by the sweep over the rest, continuing the numbering and the three
    lists; so a sweep stopped after some levels has done exactly what the
    full sweep does first. *)
Theorem sweep_app `{E : Uniform.Env} model test_case i mh1 mh2 acc :
  Uniform.sweep model test_case i (mh1 ++ mh2) acc
  = (Uniform.sweep model test_case i mh1 acc
     ≫= fun acc' =>
       Uniform.sweep model test_case (i + Z.of_nat (length mh1)) mh2 acc')
  /\ events (Uniform.sweep model test_case i mh1 acc)
     `prefix_of` events (Uniform.sweep model test_case i (mh1 ++ mh2) acc).
Proof.
  pose proof (sweep_app_at model test_case mh1 mh2 i _ acc eq_refl) as Happ.
  split; [exact Happ|].
  rewrite Happ, events_bind. apply prefix_app_r. reflexivity.
Qed.

Lemma solves_cons (e : Event) (tr : list Event) :
  solves (e :: tr)
  = match e with ESolve m => m :: solves tr | _ => solves tr end.
Proof. destruct e; reflexivity. Qed.

Lemma mesh_lines_cons (e : Event) (tr : list Event) :
  mesh_lines (e :: tr)
  = match e with
    | EPrint (MMesh i) => i :: mesh_lines tr
    | _ => mesh_lines tr
    end.
Proof. destruct e as [[]| | | | | | | | | | | | |]; reflexivity. Qed.

(** The sweep solves the levels of the hierarchy in order, each at most
    once and none out of turn, and numbers the printed [Mesh] lines
    consecutively from its starting index; when it ends normally it has
    solved every level. *)
Theorem sweep_solves_in_order `{E : Uniform.Env} model test_case mh :
  forall i acc,
    solves (events (Uniform.sweep model test_case i mh acc)) `prefix_of` mh
    /\ mesh_lines (events (Uniform.sweep model test_case i mh acc))
       = seqZ i (Z.of_nat (length
                   (solves (events (Uniform.sweep model test_case i mh acc)))))
    /\ (forall arrays,
          outcome (Uniform.sweep model test_case i mh acc) = Py.Ok arrays ->
          solves (events (Uniform.sweep model test_case i mh acc)) = mh).
Proof.
  induction mh as [|mesh mh IH]; intros i acc.
  - cbn. split; [reflexivity|]. split; reflexivity.
  - cbn [Uniform.sweep]. unfold Uniform.name_qoi.
    destruct Uniform.star_qoi as [v|].
    + cbn [mbind script_bind bind emit mret script_ret ret events outcome app].
      match goal with
      | |- context [Uniform.sweep model test_case (i + 1) mh ?acc1] =>
          destruct (IH (i + 1) acc1) as (Hpre & Hlines & Hall);
          set (rest := Uniform.sweep model test_case (i + 1) mh acc1) in *
      end.
      rewrite !solves_cons, !mesh_lines_cons.
      split; [apply prefix_cons; exact Hpre|]. split.
      * rewrite Hlines. cbn [length].
        rewrite (seqZ_cons i) by lia. f_equal. f_equal; lia.
      * intros arrays Hout. f_equal. exact (Hall arrays Hout).
    + cbn. split; [apply prefix_cons, prefix_nil|].
      split; [reflexivity|discriminate].
Qed.

(** ** What [np.save] leaves on disk *)

Lemma disk_from_app (d : gmap string (list Value)) (t1 t2 : list Event) :
  disk_from d (t1 ++ t2) = disk_from (disk_from d t1) t2.
Proof. unfold disk_from. apply foldl_app. Qed.

Lemma disk_as_disk_from (tr : list Event) : disk tr = disk_from ∅ tr.
Proof. reflexivity. Qed.

Lemma uniform_paths_distinct (model : string) (test_case : Z) :
  Uniform.qois_path model test_case <> Uniform.dofs_path model test_case
  /\ Uniform.qois_path model test_case <> Uniform.elements_path model test_case
  /\ Uniform.dofs_path model test_case <> Uniform.elements_path model test_case.
Proof.
  unfold Uniform.qois_path, Uniform.dofs_path, Uniform.elements_path.
  repeat split; intros Heq; apply (inj (String.app model)) in Heq;
    discriminate Heq.
Qed.

Section SweepDisk.
Context `{E : Uniform.Env}.

Lemma sweep_result model test_case v mh :
  Uniform.star_qoi = Some v ->
  forall i acc,
    outcome (Uniform.sweep model test_case i mh acc)
    = Py.Ok {| Uniform.qois := Uniform.qois acc ++ replicate (length mh) v;
               Uniform.dofs := Uniform.dofs acc ++ map dof_total mh;
               Uniform.elements := Uniform.elements acc ++ map Fem.num_cells mh |}.
Proof.
  intros Hqoi. induction mh as [|mesh mh IH]; intros i acc.
  - cbn. rewrite !app_nil_r. destruct acc; reflexivity.
  - cbn [Uniform.sweep]. unfold Uniform.name_qoi. rewrite Hqoi.
    cbn [mbind script_bind bind emit mret script_ret ret events outcome app].
    rewrite IH. cbn [Uniform.qois Uniform.dofs Uniform.elements length replicate map].
    rewrite <- !app_assoc. reflexivity.
Qed.

End SweepDisk.

(** When the star import binds the name [qoi] to some object, the files
    on disk after a sweep over a non-empty hierarchy hold one entry per
    level: that object once per level in the first file (the computed
    quantity of interest is printed, not stored), the degree-of-freedom
    totals of the levels in the second and their element counts in the
    third. *)
Theorem sweep_disk_after_levels `{E : Uniform.Env} model test_case v mh :
  Uniform.star_qoi = Some v -> mh <> [] ->
  let tr := events (Uniform.sweep model test_case 0 mh
                      {| Uniform.qois := []; Uniform.dofs := [];
                         Uniform.elements := [] |}) in
  disk tr !! Uniform.qois_path model test_case = Some (replicate (length mh) v)
  /\ disk tr !! Uniform.dofs_path model test_case
     = Some (int_array (map dof_total mh))
  /\ disk tr !! Uniform.elements_path model test_case
     = Some (int_array (map Fem.num_cells mh)).
Proof.
  intros Hqoi Hne.
  destruct (uniform_paths_distinct model test_case) as (Hqd & Hqe & Hde).
  destruct mh as [|m0 mh0] using rev_ind; [contradiction|]. clear IHmh0 Hne.
  cbv zeta.
  rewrite (sweep_app_at model test_case mh0 [m0] 0 _ _ eq_refl), events_bind.
  rewrite (sweep_result model test_case v mh0 Hqoi).
  cbn [Uniform.sweep]. unfold Uniform.name_qoi. rewrite Hqoi.
  cbn [mbind script_bind bind emit mret script_ret ret events outcome app
       Uniform.qois Uniform.dofs Uniform.elements].
  rewrite disk_as_disk_from, disk_from_app.
  cbn [disk_from foldl].
  rewrite length_app, !map_app. cbn [length map].
  replace (replicate (length mh0 + 1) v) with (replicate (length mh0) v ++ [v]).
  2:{ rewrite Nat.add_1_r. cbn [replicate].
      rewrite replicate_cons_app. reflexivity. }
  split; [|split].
  - rewrite lookup_insert_ne by (intros Heq; apply Hqe; symmetry; exact Heq).
    rewrite lookup_insert_ne by (intros Heq; apply Hqd; symmetry; exact Heq).
    rewrite lookup_insert_eq. reflexivity.
  - rewrite lookup_insert_ne by (intros Heq; apply Hde; symmetry; exact Heq).
    rewrite lookup_insert_eq. reflexivity.
  - rewrite lookup_insert_eq. reflexivity.
Qed.

(** ** File names of the harvested data *)

Lemma string_app_length (x z : string) :
  String.length (x +:+ z) = (String.length x + String.length z)%nat.
Proof. induction x as [|c x IH]; simpl; [reflexivity|]. f_equal. exact IH. Qed.

Lemma string_app_inj_r (z x y : string) : x +:+ z = y +:+ z -> x = y.
Proof.
  revert y. induction x as [|c x IH]; intros [|c' y] Heq.
  - reflexivity.
  - apply (f_equal String.length) in Heq.
    change (String.length z = S (String.length (y +:+ z))) in Heq.
    rewrite string_app_length in Heq. lia.
  - apply (f_equal String.length) in Heq.
    change (S (String.length (x +:+ z)) = String.length z) in Heq.
    rewrite string_app_length in Heq. lia.
  - change (String c (x +:+ z) = String c' (y +:+ z)) in Heq.
    injection Heq as -> Heq. f_equal. exact (IH y Heq).
Qed.

Section PathFacts.
Context `{E : Adapt.Env}.

Lemma feature_path_inj a suffix key1 key2 :
  Adapt.feature_path a key1 suffix = Adapt.feature_path a key2 suffix ->
  key1 = key2.
Proof.
  unfold Adapt.feature_path. intros Heq.
  apply (inj (String.app _)) in Heq. apply (inj (String.app _)) in Heq.
  exact (string_app_inj_r _ _ _ Heq).
Qed.

Lemma feature_target_ne a key suffix suffix' :
  Adapt.feature_path a key suffix <> Adapt.target_path a suffix'.
Proof.
  unfold Adapt.feature_path, Adapt.target_path. intros Heq.
  apply (inj (String.app _)) in Heq. discriminate Heq.
Qed.

Lemma suffix_inj a tc st1 st2 :
  Adapt.suffix a tc st1 = Adapt.suffix a tc st2 ->
  ConvergenceTracker.fp_iteration (Adapt.ct st1)
  = ConvergenceTracker.fp_iteration (Adapt.ct st2).
Proof.
  unfold Adapt.suffix. intros Heq.
  do 4 apply (inj (String.app _)) in Heq.
  exact (inj pretty _ _ Heq).
Qed.

End PathFacts.

(** The names under which a run saves its data never collide: the target
    file and the file of any one feature get different names in passes
    with different iteration indices; within one pass different features
    get different names; and no feature file has the name of a target
    file. *)
Theorem harvest_names_distinct `{E : Adapt.Env} (a : Adapt.Args)
    (tc : Adapt.TestCase) :
  (forall st1 st2 key,
     ConvergenceTracker.fp_iteration (Adapt.ct st1)
     <> ConvergenceTracker.fp_iteration (Adapt.ct st2) ->
     Adapt.target_path a (Adapt.suffix a tc st1)
     <> Adapt.target_path a (Adapt.suffix a tc st2)
     /\ Adapt.feature_path a key (Adapt.suffix a tc st1)
        <> Adapt.feature_path a key (Adapt.suffix a tc st2))
  /\ (forall suffix key1 key2, key1 <> key2 ->
        Adapt.feature_path a key1 suffix <> Adapt.feature_path a key2 suffix)
  /\ (forall key suffix suffix',
        Adapt.feature_path a key suffix <> Adapt.target_path a suffix').
Proof.
  split; [|split].
  - intros st1 st2 key Hne. split; intros Heq; apply Hne, (suffix_inj a tc).
    + unfold Adapt.target_path in Heq.
      do 2 apply (inj (String.app _)) in Heq. exact Heq.
    + unfold Adapt.feature_path in Heq.
      do 4 apply (inj (String.app _)) in Heq. exact Heq.
  - intros suffix key1 key2 Hne Heq. exact (Hne (feature_path_inj _ _ _ _ Heq)).
  - intros key suffix suffix'. apply feature_target_ne.
Qed.

(** ** The data directory after a harvest *)

Lemma disk_from_unwritten (p : string) (tr : list Event) :
  forall d, (forall x, ESave p x ∉ tr) -> disk_from d tr !! p = d !! p.
Proof.
  induction tr as [|e tr IH]; intros d Hno; [reflexivity|].
  assert (Hrest : forall x, ESave p x ∉ tr).
  { intros x Hin. apply (Hno x). right. exact Hin. }
  destruct e; cbn [disk_from foldl]; try (apply IH; exact Hrest).
  change (foldl _ ?d0 tr) with (disk_from d0 tr).
  rewrite IH by exact Hrest. apply lookup_insert_ne.
  intros <-. apply (Hno array). left.
Qed.

Lemma disk_from_written (p : string) (x : list Value) (tr : list Event) :
  forall d, disk_from d tr !! p = Some x -> d !! p = Some x \/ ESave p x ∈ tr.
Proof.
  induction tr as [|e tr IH]; intros d Hx; [left; exact Hx|].
  destruct e; cbn [disk_from foldl] in Hx;
    try (destruct (IH _ Hx) as [Hd|Hin]; [left; exact Hd|right; right; exact Hin]).
  change (foldl _ ?d0 tr) with (disk_from d0 tr) in Hx.
  destruct (IH _ Hx) as [Hd|Hin]; [|right; right; exact Hin].
  destruct (decide (path = p)) as [->|Hne].
  - rewrite lookup_insert_eq in Hd. injection Hd as ->. right. left.
  - rewrite lookup_insert_ne in Hd by exact Hne. left. exact Hd.
Qed.

Section HarvestDisk.
Context `{E : Adapt.Env}.

Lemma features_on_disk a suffix (items : list (string * list Py.float)) :
  NoDup items.*1 ->
  forall d key value, (key, value) ∈ items ->
    disk_from d ((fun kv => ESave (Adapt.feature_path a kv.1 suffix)
                              (float_array kv.2)) <$> items)
      !! Adapt.feature_path a key suffix
    = Some (float_array value).
Proof.
  induction items as [|[k v] items IH]; intros Hnd d key value Hin.
  - inversion Hin.
  - cbn [fmap list_fmap fst] in Hnd. apply NoDup_cons in Hnd as [Hk Hnd].
    cbn [fmap list_fmap disk_from foldl fst snd].
    change (foldl _ ?d0 ?t) with (disk_from d0 t).
    apply elem_of_cons in Hin as [[= -> ->]|Hin].
    + rewrite disk_from_unwritten; [apply lookup_insert_eq|].
      intros x Hx. apply list_elem_of_fmap in Hx as ([k' v'] & Heq & Hin').
      injection Heq as Hpath _. apply feature_path_inj in Hpath. subst k'.
      apply Hk. apply list_elem_of_fmap. exists (k, v'). split; [reflexivity|exact Hin'].
    + apply IH; assumption.
Qed.

End HarvestDisk.

(** After a harvest whose target holds no NaN, the data directory holds
    the target array under the target name and the array of every
    feature under that feature's name, none overwritten by another, and
    the harvest has written no other file. *)
Theorem harvest_disk `{E : Adapt.Env} (a : Adapt.Args) (suffix : string)
    (fwd : Fem.Function) (adj_sol : Value) (d : Fem.Function) :
  Py.any_isnan (Fem.flatten d) = false ->
  let files := disk (events (Adapt.harvest a suffix fwd adj_sol (VFunc d))) in
  files !! Adapt.target_path a suffix = Some (float_array (Fem.flatten d))
  /\ (forall key value,
        Adapt.extract_features fwd adj_sol !! key = Some value ->
        files !! Adapt.feature_path a key suffix = Some (float_array value))
  /\ (forall p x, files !! p = Some x ->
        p = Adapt.target_path a suffix
        \/ exists key value,
             Adapt.extract_features fwd adj_sol !! key = Some value
             /\ p = Adapt.feature_path a key suffix
             /\ x = float_array value).
Proof.
  intros Hnan. cbv zeta. rewrite (harvest_clean _ _ _ _ _ Hnan). cbn [events].
  rewrite disk_as_disk_from.
  change (EFeatures :: ?l) with ([EFeatures] ++ l).
  rewrite !disk_from_app. cbn [disk_from foldl].
  change (foldl _ ?d0 ?t) with (disk_from d0 t).
  split; [apply lookup_insert_eq|]. split.
  - intros key value Hkv.
    rewrite lookup_insert_ne by (intros Heq; symmetry in Heq;
                                 exact (feature_target_ne _ _ _ _ Heq)).
    apply features_on_disk.
    + apply NoDup_fst_map_to_list.
    + apply elem_of_map_to_list. exact Hkv.
  - intros p x Hx.
    destruct (decide (p = Adapt.target_path a suffix)) as [->|Hne];
      [left; reflexivity|right].
    rewrite lookup_insert_ne in Hx by (intros Heq; apply Hne; symmetry; exact Heq).
    apply disk_from_written in Hx as [Hx|Hx]; [rewrite lookup_empty in Hx; discriminate|].
    apply list_elem_of_fmap in Hx as ([key value] & Heq & Hin).
    injection Heq as -> ->. exists key, value.
    split; [apply elem_of_map_to_list; exact Hin|]. split; reflexivity.
Qed.

(** ** Edges of the projection fallback *)
Section ProjEdges.
Context `{E : Adapt.Env}.

(** The first component projection that raises ends the fallback. *)
Lemma project_components_raise ic :
  forall src i c_init c e,
    (forall j c_init' c', (j < i)%nat -> ic !! j = Some c_init' ->
       src !! j = Some c' ->
       exists x, Adapt.project_component c_init' c' = Py.Ok x) ->
    ic !! i = Some c_init -> src !! i = Some c ->
    Adapt.project_component c_init c = Py.Raise e ->
    Adapt.project_components ic src = Py.Raise e.
Proof.
  induction ic as [|c0 ic IH]; intros src i c_init c e Hbefore Hi Hs Hraise.
  - discriminate.
  - destruct src as [|s0 src]; [discriminate|].
    destruct i as [|i]; cbn in Hi, Hs.
    + injection Hi as ->. injection Hs as ->. cbn. rewrite Hraise. reflexivity.
    + destruct (Hbefore 0%nat c0 s0 ltac:(lia) eq_refl eq_refl) as [x Hx].
      cbn. rewrite Hx.
      rewrite (IH src i c_init c e); [reflexivity| |exact Hi|exact Hs|exact Hraise].
      intros j ci cj Hj Hci Hcj. apply (Hbefore (S j) ci cj); [lia|exact Hci|exact Hcj].
Qed.

End ProjEdges.

(** [proj] catches [NotImplementedError] from the direct projection and
    nothing else: any other exception of the direct projection leaves
    [proj] as it is; in the fallback the first component projection that
    raises ends [proj] with that exception; and when the previous
    solution has fewer components than the new space, the components
    without a partner are left as [Function(V)] created them, all zero,
    without any error. *)
Theorem proj_fallback_edges `{E : Adapt.Env}
    (fwd_sol : Fem.Function) (V : Fem.FunctionSpace) :
  (forall e, e <> Py.NotImplementedError ->
     Adapt.project (Fem.new_Function V) fwd_sol = Py.Raise e ->
     Adapt.proj fwd_sol V = Py.Raise e)
  /\ (Adapt.project (Fem.new_Function V) fwd_sol = Py.Raise Py.NotImplementedError ->
      forall i c_init c e,
        (forall j c_init' c', (j < i)%nat ->
           Fem.split (Fem.new_Function V) !! j = Some c_init' ->
           Fem.split fwd_sol !! j = Some c' ->
           exists x, Adapt.project_component c_init' c' = Py.Ok x) ->
        Fem.split (Fem.new_Function V) !! i = Some c_init ->
        Fem.split fwd_sol !! i = Some c ->
        Adapt.project_component c_init c = Py.Raise e ->
        Adapt.proj fwd_sol V = Py.Raise e)
  /\ (Adapt.project (Fem.new_Function V) fwd_sol = Py.Raise Py.NotImplementedError ->
      forall r i n,
        Adapt.proj fwd_sol V = Py.Ok r ->
        Fem.dof_count V !! i = Some n ->
        Fem.split fwd_sol !! i = None ->
        Fem.split r !! i = Some (replicate (Z.to_nat n) (Py.Finite 0))).
Proof.
  unfold Adapt.proj. split; [|split].
  - intros e Hne ->. destruct e; try reflexivity. contradiction.
  - intros -> i c_init c e Hbefore Hi Hs Hraise.
    rewrite (project_components_raise _ _ i c_init c e Hbefore Hi Hs Hraise).
    reflexivity.
  - intros -> r i n Hr Hn Hs.
    destruct (Adapt.project_components _ _) as [d|e] eqn:Hd; [|discriminate].
    injection Hr as <-. cbn [Adapt.set_split Fem.split].
    destruct (project_components_lookup _ _ _ Hd) as (_ & _ & Hout).
    rewrite (Hout i Hs). cbn [Fem.new_Function Fem.split].
    change (map ?f ?l) with (f <$> l).
    rewrite list_lookup_fmap, Hn. reflexivity.
Qed.

(** ** Keys every bundle must hold *)

(** A bundle without [qoi] ends the pass with [KeyError] right after the
    solve; one with [qoi] but without [forward] does the same for
    [forward]; and a [forward] entry that is not a finite-element
    function ends it with [AttributeError] after the quantity of
    interest has been printed.  The mesh is not adapted in any of these
    cases. *)
Theorem body_required_keys `{E : Adapt.Env} (a : Adapt.Args)
    (tc : Adapt.TestCase) (st : Adapt.State)
    (out : gmap string Value) (ct1 : ConvergenceTracker.t) :
  Adapt.solve a st = (out, ct1) ->
  (out !! "qoi" = None ->
     Adapt.body a tc st
     = Run [EGoMetric (Adapt.mesh st)] (Py.Raise (Py.KeyError "qoi")))
  /\ (forall q, out !! "qoi" = Some q -> out !! "forward" = None ->
        Adapt.body a tc st
        = Run [EGoMetric (Adapt.mesh st)] (Py.Raise (Py.KeyError "forward")))
  /\ (forall q v, out !! "qoi" = Some q -> out !! "forward" = Some v ->
        (forall f, v <> VFunc f) ->
        Adapt.body a tc st
        = Run [EGoMetric (Adapt.mesh st); EPrint (MQoI q (Some Adapt.qoi_unit))]
              (Py.Raise Py.AttributeError)).
Proof.
  intros Hsolve. unfold Adapt.body. rewrite Hsolve.
  unfold Adapt.getitem. split; [|split].
  - intros ->. reflexivity.
  - intros q -> ->. reflexivity.
  - intros q v -> -> Hv. destruct v as [x|n|f|tag]; try reflexivity.
    contradiction (Hv f). reflexivity.
Qed.

(** ** The kinds of events a pass produces *)
Section EventKinds.
Context `{E : Adapt.Env} `{I : Py.Interpreter}.
Context (P : Event -> Prop) (a : Adapt.Args).
Hypothesis P_print : forall m, P (EPrint m).
Hypothesis P_metric : P EMetric.
Hypothesis P_adapt : forall m, P (EAdapt m).
Hypothesis P_pvd : Adapt.skip_outputs a = false -> forall p, P (EPvd p).
Hypothesis P_features : Adapt.optimise a = false -> P EFeatures.
Hypothesis P_save : Adapt.optimise a = false -> forall p x, P (ESave p x).

Lemma events_bind_Forall {A B} (m : script A) (k : A -> script B) :
  Forall P (events m) -> (forall x, Forall P (events (k x))) ->
  Forall P (events (m ≫= k)).
Proof.
  intros Hm Hk. rewrite events_bind. apply Forall_app. split; [exact Hm|].
  destruct (outcome m); [apply Hk|constructor].
Qed.

Lemma kinds_getitem out key : Forall P (events (Adapt.getitem out key)).
Proof. unfold Adapt.getitem. destruct (out !! key); constructor. Qed.

Lemma kinds_as_func v : Forall P (events (Adapt.as_func v)).
Proof. destruct v; constructor. Qed.

Lemma kinds_assert b : Forall P (events (assert_ b)).
Proof. destruct b; constructor. Qed.

Lemma kinds_emit e : P e -> Forall P (events (emit e)).
Proof. intros He. repeat constructor. exact He. Qed.

Lemma kinds_write_fields tc adj_sol :
  Forall P (events (Adapt.write_fields a tc adj_sol)).
Proof.
  unfold Adapt.write_fields.
  destruct (Adapt.skip_outputs a) eqn:Hskip; [constructor|].
  repeat first [ apply kinds_as_func
               | apply kinds_emit; apply (P_pvd eq_refl)
               | apply events_bind_Forall; [|intros ?] ].
Qed.

Lemma kinds_save_features suffix items :
  Adapt.optimise a = false ->
  Forall P (events (Adapt.save_features a suffix items)).
Proof.
  intros Hopt. rewrite save_features_run. cbn [events].
  apply Forall_fmap, Forall_forall. intros kv _. apply (P_save Hopt).
Qed.

Lemma kinds_harvest suffix fwd adj_sol dwr :
  Adapt.optimise a = false ->
  Forall P (events (Adapt.harvest a suffix fwd adj_sol dwr)).
Proof.
  intros Hopt. unfold Adapt.harvest.
  repeat first [ apply kinds_as_func | apply kinds_assert
               | apply (kinds_save_features _ _ Hopt)
               | apply kinds_emit; first [apply (P_features Hopt)|apply (P_save Hopt)]
               | apply events_bind_Forall; [|intros ?] ].
Qed.

Lemma kinds_adapt_and_check tc st metric :
  Forall P (events (Adapt.adapt_and_check a tc st metric)).
Proof.
  unfold Adapt.adapt_and_check.
  apply events_bind_Forall; [apply kinds_emit, P_adapt|intros _].
  apply events_bind_Forall.
  { destruct (Adapt.skip_outputs a) eqn:Hskip;
      [constructor|apply kinds_emit, (P_pvd eq_refl)]. }
  intros _.
  apply events_bind_Forall; [apply kinds_emit, P_print|intros _].
  apply events_bind_Forall; [apply kinds_emit, P_print|intros _].
  destruct (ConvergenceTracker.check_elements _ _) as [[|] ct1];
    [constructor|].
  destruct (ConvergenceTracker.check_maxiter ct1) as [sig ct2]. constructor.
Qed.

(** A pass calls the solve/estimate service first, and what follows is
    made of printed lines, metric processing, adaptation, and, when the
    flags allow them, file output and harvesting. *)
Lemma body_kinds tc st :
  exists rest,
    events (Adapt.body a tc st) = EGoMetric (Adapt.mesh st) :: rest
    /\ Forall P rest.
Proof.
  unfold Adapt.body. rewrite bind_emit. cbn [events]. eexists. split; [reflexivity|].
  destruct (Adapt.solve a st) as [out ct1].
  apply events_bind_Forall; [apply kinds_getitem|intros qoi].
  apply events_bind_Forall; [apply kinds_getitem|intros forward].
  apply events_bind_Forall; [apply kinds_emit, P_print|intros _].
  apply events_bind_Forall; [apply kinds_as_func|intros fwd].
  apply events_bind_Forall; [apply kinds_emit, P_print|intros _].
  destruct (negb (Adapt.contains out "adjoint")); [constructor|].
  apply events_bind_Forall; [apply kinds_getitem|intros estimator].
  apply events_bind_Forall; [apply kinds_emit, P_print|intros _].
  destruct (negb (Adapt.contains out "metric")); [constructor|].
  apply events_bind_Forall; [apply kinds_getitem|intros adj_sol].
  apply events_bind_Forall; [apply kinds_getitem|intros dwr].
  apply events_bind_Forall; [apply kinds_getitem|intros p0metric].
  apply events_bind_Forall; [apply kinds_write_fields|intros _].
  apply events_bind_Forall.
  { assert (Hcase : Adapt.optimise a = true \/ Adapt.optimise a = false)
      by (destruct (Adapt.optimise a); auto).
    destruct Hcase as [Hopt|Hopt]; rewrite Hopt;
      [exact (Forall_nil_2 P)|apply (kinds_harvest _ _ _ _ Hopt)]. }
  intros _.
  apply events_bind_Forall.
  { unfold Adapt.process_metric.
    apply events_bind_Forall; [apply kinds_emit, P_metric|intros _]. constructor. }
  intros metric. apply kinds_adapt_and_check.
Qed.

Hypothesis P_go : forall m, P (EGoMetric m).
Hypothesis P_iter : forall i, P (EIter i).

Lemma loop_kinds tc range :
  forall st, Forall P (events (Adapt.loop a tc range st)).
Proof.
  induction range as [|i range IH]; intros st; [constructor|].
  cbn [Adapt.loop].
  apply events_bind_Forall; [apply kinds_emit, P_iter|intros _].
  apply events_bind_Forall.
  - destruct (body_kinds tc (Adapt.bind_target i st)) as (rest & -> & Hrest).
    constructor; [apply P_go|exact Hrest].
  - intros [[|] st']; [apply IH|constructor].
Qed.

Lemma run_loop_kinds tc st : Forall P (events (Adapt.run_loop a tc st)).
Proof.
  unfold Adapt.run_loop.
  apply events_bind_Forall; [apply loop_kinds|intros st'].
  apply events_bind_Forall; [apply kinds_emit, P_print|intros _].
  apply events_bind_Forall; [apply kinds_emit, P_print|intros _].
  constructor.
Qed.

Lemma parse_test_case_silent s : events (Adapt.parse_test_case s) = [].
Proof.
  unfold Adapt.parse_test_case, Script.int.
  destruct (Py.int s) as [n|]; cbn; [|reflexivity].
  destruct (0 <? n); reflexivity.
Qed.

Hypothesis P_import : forall m, P (EImport m).
Hypothesis P_initialise : forall t, P (EInitialise t).
Hypothesis P_mesh : forall p, P (EMesh p).

Lemma main_kinds : Forall P (events (Adapt.main a)).
Proof.
  unfold Adapt.main.
  apply events_bind_Forall;
    [rewrite parse_test_case_silent; constructor|intros tc].
  apply events_bind_Forall; [apply kinds_emit, P_import|intros _].
  apply events_bind_Forall; [apply kinds_emit, P_initialise|intros _].
  apply events_bind_Forall; [apply kinds_emit, P_mesh|intros _].
  apply events_bind_Forall.
  { assert (Hcase : Adapt.skip_outputs a = true \/ Adapt.skip_outputs a = false)
      by (destruct (Adapt.skip_outputs a); auto).
    destruct Hcase as [Hskip|Hskip]; rewrite Hskip;
      [exact (Forall_nil_2 P)|apply kinds_emit, (P_pvd Hskip)]. }
  intros _.
  apply events_bind_Forall; [apply kinds_emit, P_print|intros _].
  apply events_bind_Forall; [apply kinds_emit, P_print|intros _].
  apply events_bind_Forall; [apply kinds_emit, P_print|intros _].
  apply run_loop_kinds.
Qed.

End EventKinds.

(** A run of [run_adapt.py] honours its flags from the first statement to
    the last: with [--no_outputs] or [--optimise] it writes no [.pvd]
    file, and with [--optimise] it neither extracts features nor calls
    [np.save]. *)
Theorem adapt_run_respects_flags `{E : Adapt.Env} `{I : Py.Interpreter}
    (a : Adapt.Args) :
  Forall (respects_flags a) (events (Adapt.main a)).
Proof.
  apply main_kinds; unfold respects_flags; intros;
    repeat split; intros; try reflexivity; congruence.
Qed.

Lemma count_Forall_false (p : Event -> bool) (tr : list Event) :
  Forall (fun e => p e = false) tr -> count p tr = 0%nat.
Proof.
  induction 1 as [|e tr He _ IH]; [reflexivity|].
  rewrite count_cons, He. exact IH.
Qed.

Lemma iterations_Forall_false (tr : list Event) :
  Forall (fun e => is_iter e = false) tr -> iterations tr = [].
Proof.
  induction 1 as [|e tr He _ IH]; [reflexivity|].
  rewrite iterations_cons. destruct e; try discriminate; exact IH.
Qed.

(** ** Calls of the solve/estimate service *)
Section SolveCalls.
Context `{E : Adapt.Env}.

Lemma balanced_bind {A B} (m : script A) (k : A -> script B) :
  balanced m -> (forall x, balanced (k x)) -> balanced (m ≫= k).
Proof.
  unfold balanced. intros Hm Hk.
  rewrite events_bind, count_app, iterations_app, length_app, Hm.
  destruct (outcome m) as [x|e]; [rewrite Hk|]; reflexivity.
Qed.

Lemma body_one_solve a tc st :
  count is_go (events (Adapt.body a tc st)) = 1%nat
  /\ iterations (events (Adapt.body a tc st)) = [].
Proof.
  destruct (body_kinds (fun e => is_go e = false /\ is_iter e = false) a
              ltac:(split; reflexivity) ltac:(split; reflexivity)
              ltac:(split; reflexivity) ltac:(split; reflexivity)
              ltac:(split; reflexivity) ltac:(split; reflexivity) tc st)
    as (rest & -> & Hrest).
  rewrite count_cons, iterations_cons. cbn [is_go].
  rewrite count_Forall_false, iterations_Forall_false.
  - split; reflexivity.
  - eapply Forall_impl; [exact Hrest|]. intros e [_ He]. exact He.
  - eapply Forall_impl; [exact Hrest|]. intros e [He _]. exact He.
Qed.

Lemma loop_balanced a tc range :
  forall st, balanced (Adapt.loop a tc range st).
Proof.
  unfold balanced.
  induction range as [|i range IH]; intros st; [reflexivity|].
  cbn [Adapt.loop]. rewrite !events_bind. cbn [emit events outcome app].
  destruct (body_one_solve a tc (Adapt.bind_target i st)) as [Hgo Hit].
  rewrite count_cons, iterations_cons, count_app, iterations_app, Hgo, Hit.
  cbn [is_go app length].
  destruct (outcome (Adapt.body a tc (Adapt.bind_target i st)))
    as [[[|] st']|e]; cbn [events mret script_ret ret];
    rewrite ?IH; reflexivity.
Qed.

End SolveCalls.

(** Every pass of the loop calls the solve/estimate service exactly
    once, and the script calls it nowhere else: over a whole run the
    number of calls is the number of passes. *)
Theorem solve_once_per_pass `{E : Adapt.Env} `{I : Py.Interpreter}
    (a : Adapt.Args) :
  count is_go (events (Adapt.main a))
  = length (iterations (events (Adapt.main a))).
Proof.
  change (balanced (Adapt.main a)). unfold Adapt.main, Adapt.run_loop.
  apply balanced_bind.
  { unfold balanced. rewrite parse_test_case_silent. reflexivity. }
  intros tc.
  do 3 (apply balanced_bind; [reflexivity|intros _]).
  apply balanced_bind; [destruct (Adapt.skip_outputs a); reflexivity|intros _].
  do 3 (apply balanced_bind; [reflexivity|intros _]).
  apply balanced_bind; [apply loop_balanced|intros st'].
  do 2 (apply balanced_bind; [reflexivity|intros _]).
  reflexivity.
Qed.

(** ** The initial guess handed to the solve/estimate service *)
Section InitKeyword.
Context `{E : Adapt.Env}.
Import ConvergenceTracker.

Lemma body_continue_state a tc st st' :
  outcome (Adapt.body a tc st) = Py.Ok (Adapt.Continue, st') ->
  Adapt.kw_init st' = Adapt.transfer a || Adapt.kw_init st
  /\ exists f, Adapt.fwd_sol st' = Some f.
Proof.
  intros Hcont.
  destruct (body_continue a tc st st' Hcont) as (f & metric & _ & Hcheck).
  destruct (adapt_and_check_keeps _ _ _ _ _ _ Hcheck) as [Hsol Hinit].
  split; [exact Hinit|]. exists f. exact Hsol.
Qed.

Lemma pass_states_length a tc range :
  forall st,
    length (pass_states a tc range st)
    = length (iterations (events (Adapt.loop a tc range st))).
Proof.
  induction range as [|i range IH]; intros st; [reflexivity|].
  cbn [pass_states Adapt.loop length]. rewrite !events_bind.
  cbn [emit events outcome app]. rewrite iterations_cons, iterations_app.
  destruct (body_one_solve a tc (Adapt.bind_target i st)) as [_ ->].
  cbn [app length]. f_equal.
  destruct (outcome (Adapt.body a tc (Adapt.bind_target i st)))
    as [[[|] st']|e]; [apply IH|reflexivity|reflexivity].
Qed.

Lemma solve_without_init a st :
  Adapt.kw_init st = false -> called_with a st None.
Proof.
  intros Hst. unfold called_with, Adapt.solve, Adapt.kwargs, call_kwargs,
    Adapt.target_ramp. rewrite Hst. reflexivity.
Qed.

Lemma solve_with_init a st f :
  Adapt.kw_init st = true -> Adapt.fwd_sol st = Some f ->
  called_with a st (Some (Adapt.proj f)).
Proof.
  intros Hst Hf. unfold called_with, Adapt.solve, Adapt.kwargs, call_kwargs,
    Adapt.target_ramp. rewrite Hst, Hf. reflexivity.
Qed.

Lemma go_calls_cons (e : Event) (tr : list Event) :
  go_calls (e :: tr)
  = match e with EGoMetric m => m :: go_calls tr | _ => go_calls tr end.
Proof. destruct e; reflexivity. Qed.

Lemma go_calls_app (t1 t2 : list Event) :
  go_calls (t1 ++ t2) = go_calls t1 ++ go_calls t2.
Proof. unfold go_calls. apply omap_app. Qed.

Lemma go_calls_Forall_false (tr : list Event) :
  Forall (fun e => is_go e = false) tr -> go_calls tr = [].
Proof.
  induction 1 as [|e tr He _ IH]; [reflexivity|].
  rewrite go_calls_cons. destruct e; try discriminate; exact IH.
Qed.

Lemma body_go_calls a tc st :
  go_calls (events (Adapt.body a tc st)) = [Adapt.mesh st].
Proof.
  destruct (body_kinds (fun e => is_go e = false) a
              ltac:(reflexivity) ltac:(reflexivity)
              ltac:(reflexivity) ltac:(reflexivity)
              ltac:(reflexivity) ltac:(reflexivity) tc st)
    as (rest & -> & Hrest).
  rewrite go_calls_cons, (go_calls_Forall_false _ Hrest). reflexivity.
Qed.

Lemma pass_states_events a tc range :
  forall st,
    (fun s => fp_iteration (Adapt.ct s)) <$> pass_states a tc range st
    = iterations (events (Adapt.loop a tc range st))
    /\ Adapt.mesh <$> pass_states a tc range st
       = go_calls (events (Adapt.loop a tc range st)).
Proof.
  induction range as [|i range IH]; intros st; [split; reflexivity|].
  cbn [pass_states Adapt.loop fmap list_fmap]. rewrite !events_bind.
  cbn [emit events outcome app].
  rewrite iterations_cons, iterations_app, go_calls_cons, go_calls_app.
  destruct (body_one_solve a tc (Adapt.bind_target i st)) as [_ ->].
  rewrite body_go_calls. cbn [app].
  destruct (outcome (Adapt.body a tc (Adapt.bind_target i st)))
    as [[[|] st']|e].
  - destruct (IH st') as [-> ->]. split; reflexivity.
  - split; reflexivity.
  - split; reflexivity.
Qed.

Lemma pass_states_without_init a tc range :
  Adapt.transfer a = false ->
  forall st, Adapt.kw_init st = false ->
    Forall (fun s => called_with a s None) (pass_states a tc range st).
Proof.
  intros Htransfer. induction range as [|i range IH]; intros st Hst;
    [constructor|].
  cbn [pass_states]. constructor.
  - apply solve_without_init. exact Hst.
  - destruct (outcome (Adapt.body a tc (Adapt.bind_target i st)))
      as [[[|] st']|e] eqn:Hbody; try constructor.
    apply IH. destruct (body_continue_state _ _ _ _ Hbody) as [-> _].
    cbn. rewrite Htransfer, Hst. reflexivity.
Qed.

Lemma pass_states_with_init a tc range :
  forall st f, Adapt.kw_init st = true -> Adapt.fwd_sol st = Some f ->
    Forall (fun s => exists f', Adapt.fwd_sol s = Some f'
                       /\ called_with a s (Some (Adapt.proj f')))
      (pass_states a tc range st).
Proof.
  induction range as [|i range IH]; intros st f Hst Hf; [constructor|].
  cbn [pass_states]. constructor.
  - exists f. split; [exact Hf|]. apply solve_with_init; assumption.
  - destruct (outcome (Adapt.body a tc (Adapt.bind_target i st)))
      as [[[|] st']|e] eqn:Hbody; try constructor.
    destruct (body_continue_state _ _ _ _ Hbody) as [Hinit [f' Hf']].
    apply (IH st' f'); [|exact Hf'].
    rewrite Hinit. cbn. rewrite Hst. apply orb_true_r.
Qed.

End InitKeyword.

(** The first pass calls the solve/estimate service without an initial
    guess.  Without [--transfer] every pass does.  With [--transfer]
    every later pass calls it with [proj] closed over the forward
    solution the script holds when the pass starts.  The pass states are
    those of the passes the loop makes: their indices are the values the
    loop target is bound to, and their meshes are the meshes of the
    calls of the service, in order. *)
Theorem init_keyword_by_transfer `{E : Adapt.Env} (a : Adapt.Args)
    (tc : Adapt.TestCase) (range : list Z) (st : Adapt.State) :
  Adapt.kw_init st = false ->
  length (pass_states a tc range st)
  = length (iterations (events (Adapt.loop a tc range st)))
  /\ (fun s => ConvergenceTracker.fp_iteration (Adapt.ct s))
       <$> pass_states a tc range st
     = iterations (events (Adapt.loop a tc range st))
  /\ Adapt.mesh <$> pass_states a tc range st
     = go_calls (events (Adapt.loop a tc range st))
  /\ (forall s, head (pass_states a tc range st) = Some s ->
        called_with a s None)
  /\ (Adapt.transfer a = false ->
      Forall (fun s => called_with a s None) (pass_states a tc range st))
  /\ (Adapt.transfer a = true ->
      Forall (fun s => exists f, Adapt.fwd_sol s = Some f
                         /\ called_with a s (Some (Adapt.proj f)))
        (tail (pass_states a tc range st))).
Proof.
  intros Hst. split; [apply pass_states_length|].
  destruct (pass_states_events a tc range st) as [Hits Hgo].
  split; [exact Hits|]. split; [exact Hgo|]. split; [|split].
  - destruct range as [|i range]; [discriminate|].
    intros s [= <-]. apply solve_without_init. exact Hst.
  - intros Htransfer. apply pass_states_without_init; assumption.
  - intros Htransfer. destruct range as [|i range]; [constructor|].
    cbn [pass_states tail].
    destruct (outcome (Adapt.body a tc (Adapt.bind_target i st)))
      as [[[|] st']|e] eqn:Hbody; try constructor.
    destruct (body_continue_state _ _ _ _ Hbody) as [Hinit [f Hf]].
    apply (pass_states_with_init a tc range st' f); [|exact Hf].
    rewrite Hinit, Htransfer. reflexivity.
Qed.

(** ** Reading back a formatted test case *)
Section ReadBack.

Lemma lstrip_no_space s : no_space s = true -> Py.lstrip s = s.
Proof.
  destruct s as [|c s]; [reflexivity|]. cbn.
  destruct (Py.is_space c); [discriminate|reflexivity].
Qed.

Lemma rstrip_no_space s : no_space s = true -> Py.rstrip s = s.
Proof.
  induction s as [|c s IH]; [reflexivity|]. cbn [no_space Py.rstrip].
  intros [Hc Hs]%andb_true_iff. rewrite (IH Hs).
  destruct s; [|reflexivity].
  destruct (Py.is_space c); [discriminate|reflexivity].
Qed.

Lemma pretty_N_char_digit (d : N) :
  (d < 10)%N ->
  Ascii.eqb (pretty_N_char d) "_" = false
  /\ Py.digit_of (pretty_N_char d) = Some (Z.of_N d)
  /\ Py.is_space (pretty_N_char d) = false
  /\ pretty_N_char d <> "-"%char /\ pretty_N_char d <> "+"%char.
Proof.
  intros Hd.
  assert (d = 0 \/ d = 1 \/ d = 2 \/ d = 3 \/ d = 4 \/ d = 5 \/ d = 6
          \/ d = 7 \/ d = 8 \/ d = 9)%N as Hcases by lia.
  repeat (destruct Hcases as [->|Hcases]); try subst d;
    repeat split; try reflexivity; discriminate.
Qed.

Lemma pretty_N_go_digits (x : N) :
  forall s prev, (0 < x)%N ->
    Py.digits 0 prev (pretty_N_go x s) = Py.digits (Z.of_N x) true s.
Proof.
  induction (N.lt_wf_0 x) as [x _ IH]. intros s prev Hx.
  rewrite pretty_N_go_step by exact Hx.
  destruct (pretty_N_char_digit (x `mod` 10)%N) as (Hus & Hdig & _);
    [apply N.mod_lt; lia|].
  assert (Hval : 10 * Z.of_N (x `div` 10)%N + Z.of_N (x `mod` 10)%N = Z.of_N x).
  { pose proof (N.div_mod x 10 ltac:(lia)) as Hdm.
    apply (f_equal Z.of_N) in Hdm.
    rewrite N2Z.inj_add, N2Z.inj_mul in Hdm. cbn in Hdm. lia. }
  destruct (N.eq_dec (x `div` 10)%N 0%N) as [Hz|Hnz].
  - rewrite Hz, pretty_N_go_0. cbn [Py.digits]. rewrite Hus, Hdig.
    rewrite Hz in Hval. cbn in Hval. cbn. rewrite <- Hval. reflexivity.
  - rewrite IH; [|apply N.div_lt; lia|apply N.neq_0_lt_0; exact Hnz].
    cbn [Py.digits]. rewrite Hus, Hdig, Hval. reflexivity.
Qed.

Lemma pretty_N_go_no_space (x : N) :
  forall s, no_space s = true -> no_space (pretty_N_go x s) = true.
Proof.
  induction (N.lt_wf_0 x) as [x _ IH]. intros s Hs.
  destruct (N.eq_dec x 0%N) as [->|Hx]; [rewrite pretty_N_go_0; exact Hs|].
  apply N.neq_0_lt_0 in Hx.
  rewrite pretty_N_go_step by exact Hx. apply IH; [apply N.div_lt; lia|].
  cbn [no_space].
  destruct (pretty_N_char_digit (x `mod` 10)%N) as (_ & _ & -> & _);
    [apply N.mod_lt; lia|]. exact Hs.
Qed.

Lemma pretty_N_go_head (x : N) :
  forall s, (0 < x)%N ->
    exists d rest, (d < 10)%N /\ pretty_N_go x s = String (pretty_N_char d) rest.
Proof.
  induction (N.lt_wf_0 x) as [x _ IH]. intros s Hx.
  rewrite pretty_N_go_step by exact Hx.
  destruct (N.eq_dec (x `div` 10)%N 0%N) as [Hz|Hnz].
  - rewrite Hz, pretty_N_go_0. exists (x `mod` 10)%N, s.
    split; [apply N.mod_lt; lia|reflexivity].
  - apply IH; [apply N.div_lt; lia|apply N.neq_0_lt_0; exact Hnz].
Qed.

(** The ASCII reader reads the decimal form of a positive integer back. *)
Lemma int_pretty_pos (p : positive) :
  Py.ascii_int (pretty (Z.pos p)) = Some (Z.pos p).
Proof.
  change (pretty (Z.pos p)) with (pretty_N_go (N.pos p) "").
  unfold Py.ascii_int, Py.strip.
  rewrite lstrip_no_space, rstrip_no_space
    by (apply pretty_N_go_no_space; reflexivity).
  destruct (pretty_N_go_head (N.pos p) "" ltac:(lia)) as (d & rest & Hd & Hhead).
  destruct (pretty_N_char_digit d Hd) as (_ & _ & _ & Hminus & Hplus).
  assert (Hint : Py.digits 0 false (pretty_N_go (N.pos p) "") = Some (Z.pos p)).
  { rewrite pretty_N_go_digits by lia. reflexivity. }
  rewrite Hhead in *.
  destruct (pretty_N_char d) as [[] [] [] [] [] [] [] []];
    try exact Hint; contradiction.
Qed.

Lemma pretty_N_char_ascii (d : N) :
  (d < 10)%N -> (Z.of_nat (Ascii.nat_of_ascii (pretty_N_char d)) <? 128) = true.
Proof.
  intros Hd.
  assert (d = 0 \/ d = 1 \/ d = 2 \/ d = 3 \/ d = 4 \/ d = 5 \/ d = 6
          \/ d = 7 \/ d = 8 \/ d = 9)%N as Hcases by lia.
  repeat (destruct Hcases as [->|Hcases]); try subst d; reflexivity.
Qed.

Lemma pretty_N_go_ascii (x : N) :
  forall s, Py.is_ascii s = true -> Py.is_ascii (pretty_N_go x s) = true.
Proof.
  induction (N.lt_wf_0 x) as [x _ IH]. intros s Hs.
  destruct (N.eq_dec x 0%N) as [->|Hx]; [rewrite pretty_N_go_0; exact Hs|].
  apply N.neq_0_lt_0 in Hx.
  rewrite pretty_N_go_step by exact Hx. apply IH; [apply N.div_lt; lia|].
  cbn [Py.is_ascii].
  rewrite pretty_N_char_ascii by (apply N.mod_lt; lia). exact Hs.
Qed.

Lemma pretty_N_go_length (k : nat) :
  forall x s, (x < 10 ^ N.of_nat k)%N ->
    (String.length (pretty_N_go x s) <= k + String.length s)%nat.
Proof.
  induction k as [|k IH]; intros x s Hx.
  - assert (x = 0%N) as -> by (cbn in Hx; lia).
    rewrite pretty_N_go_0. cbn. lia.
  - destruct (N.eq_dec x 0%N) as [->|Hnz]; [rewrite pretty_N_go_0; lia|].
    apply N.neq_0_lt_0 in Hnz.
    rewrite pretty_N_go_step by exact Hnz.
    etransitivity; [apply IH|cbn; lia].
    apply N.Div0.div_lt_upper_bound.
    rewrite Nat2N.inj_succ, N.pow_succ_r' in Hx. exact Hx.
Qed.

(** The decimal form of a positive integer below 10^640 is plain. *)
Lemma plain_pretty_pos (p : positive) :
  Z.pos p < 10 ^ 640 -> Py.plain (pretty (Z.pos p)) = true.
Proof.
  intros Hp. change (pretty (Z.pos p)) with (pretty_N_go (N.pos p) "").
  unfold Py.plain. rewrite pretty_N_go_ascii by reflexivity.
  apply Nat.leb_le.
  pose proof (pretty_N_go_length 640 (N.pos p) "") as Hlen.
  cbn [String.length] in Hlen. rewrite Nat.add_0_r in Hlen. apply Hlen.
  apply N2Z.inj_lt. rewrite N2Z.inj_pow. exact Hp.
Qed.

End ReadBack.

(** The test case the argument handling returns is stable: formatting it
    the way the script does for its file names and parsing the result
    gives the same test case again, with no error.  So ["007"] and ["7"]
    name the same files, and a string identifier stays what it is.  An
    integer test case is taken below 10^640, where its decimal form is
    short enough for every setting of the interpreter's digit limit. *)
Theorem parse_test_case_stable `{Py.Interpreter} (s : string)
    (tc : Adapt.TestCase) :
  outcome (Adapt.parse_test_case s) = Py.Ok tc ->
  (forall n, tc = Adapt.TCInt n -> n < 10 ^ 640) ->
  Adapt.parse_test_case (Adapt.fmt tc) = Run [] (Py.Ok tc).
Proof.
  unfold Adapt.parse_test_case at 1. unfold Script.int.
  destruct (Py.int s) as [n|] eqn:Hint; cbn.
  - destruct (Z.ltb_spec 0 n) as [Hn|Hn]; cbn; [|discriminate].
    intros [= <-] Hsmall. cbn [Adapt.fmt].
    destruct n as [|p|p]; try lia.
    unfold Adapt.parse_test_case.
    rewrite (int_of_plain _ (plain_pretty_pos p (Hsmall _ eq_refl))).
    unfold Script.int. cbn [Py.int Py.ascii_only].
    rewrite int_pretty_pos. reflexivity.
  - intros [= <-] _. cbn [Adapt.fmt].
    unfold Adapt.parse_test_case, Script.int. rewrite Hint. reflexivity.
Qed.

(** ** The further properties on the sample surroundings *)

(** Three levels with [qoi] bound: the first file holds the bound object
    three times. *)
Lemma sweep_disk_after_levels_witness :
  disk (events (@Uniform.sweep Samples.bound_env "stokes" 0 0
                  (Scenario.refine_uniformly Scenario.coarse 2)
                  {| Uniform.qois := []; Uniform.dofs := [];
                     Uniform.elements := [] |}))
    !! Uniform.qois_path "stokes" 0
  = Some (replicate 3 (VObj "nn_adapt.qoi")).
Proof.
  exact (proj1 (@sweep_disk_after_levels Samples.bound_env "stokes" 0
                  (VObj "nn_adapt.qoi")
                  (Scenario.refine_uniformly Scenario.coarse 2)
                  eq_refl ltac:(vm_compute; discriminate))).
Defined.

(** A harvest of one finite target value. *)
Lemma harvest_disk_witness :
  disk (events
          (@Adapt.harvest (Scenario.adapt_env (Scenario.full_bundle [Py.Finite 1]))
             Scenario.adapt_args "1_GOanisotropic_0"
             (Scenario.solution_on Scenario.coarse)
             (VFunc (Scenario.solution_on Scenario.coarse))
             (VFunc {| Fem.function_space := {| Fem.dof_count := [1] |};
                       Fem.split := [[Py.Finite 1]] |})))
    !! @Adapt.target_path Scenario.adapt_args "1_GOanisotropic_0"
  = Some [VFloat (Py.Finite 1)].
Proof.
  exact (proj1 (@harvest_disk
                  (Scenario.adapt_env (Scenario.full_bundle [Py.Finite 1]))
                  Scenario.adapt_args "1_GOanisotropic_0"
                  (Scenario.solution_on Scenario.coarse)
                  (VFunc (Scenario.solution_on Scenario.coarse))
                  {| Fem.function_space := {| Fem.dof_count := [1] |};
                     Fem.split := [[Py.Finite 1]] |}
                  eq_refl)).
Defined.

(** One component carried over to a space with two: the second stays
    zero. *)
Lemma proj_fallback_edges_witness :
  Fem.split {| Fem.function_space := Samples.two_components;
               Fem.split := [[Py.Finite 1; Py.Finite 2]; [Py.Finite 0]] |}
    !! 1%nat
  = Some (replicate (Z.to_nat 1) (Py.Finite 0)).
Proof.
  exact (proj2 (proj2
    (@proj_fallback_edges
       (Scenario.adapt_env (Scenario.full_bundle [Py.Finite 1]))
       Samples.one_component Samples.two_components))
    eq_refl
    {| Fem.function_space := Samples.two_components;
       Fem.split := [[Py.Finite 1; Py.Finite 2]; [Py.Finite 0]] |}
    1%nat 1 eq_refl eq_refl eq_refl).
Defined.

(** A bundle without [qoi]. *)
Lemma body_required_keys_witness :
  @Adapt.body
    (Scenario.adapt_env
       (fun m => delete "qoi" (Scenario.full_bundle [Py.Finite 1] m)))
    Scenario.adapt_args (Adapt.TCInt 1)
    (@Adapt.initial
       (Scenario.adapt_env
          (fun m => delete "qoi" (Scenario.full_bundle [Py.Finite 1] m)))
       Scenario.adapt_args (Adapt.TCInt 1))
  = Run [EGoMetric Scenario.coarse] (Py.Raise (Py.KeyError "qoi")).
Proof.
  exact (proj1
    (@body_required_keys
       (Scenario.adapt_env
          (fun m => delete "qoi" (Scenario.full_bundle [Py.Finite 1] m)))
       Scenario.adapt_args (Adapt.TCInt 1)
       (@Adapt.initial
          (Scenario.adapt_env
             (fun m => delete "qoi" (Scenario.full_bundle [Py.Finite 1] m)))
          Scenario.adapt_args (Adapt.TCInt 1))
       (delete "qoi" (Scenario.full_bundle [Py.Finite 1] Scenario.coarse))
       (ConvergenceTracker.new 1 (1 # 100))
       eq_refl)
    eq_refl).
Defined.

(** The sample run with [--transfer]: two passes, two pass states. *)
Lemma init_keyword_by_transfer_witness :
  length (@pass_states (Scenario.adapt_env (Scenario.full_bundle [Py.Finite 1]))
            Scenario.adapt_args (Adapt.TCInt 1) [0; 1]
            (@Adapt.initial (Scenario.adapt_env (Scenario.full_bundle [Py.Finite 1]))
               Scenario.adapt_args (Adapt.TCInt 1)))
  = length (iterations (events
       (@Adapt.loop (Scenario.adapt_env (Scenario.full_bundle [Py.Finite 1]))
          Scenario.adapt_args (Adapt.TCInt 1) [0; 1]
          (@Adapt.initial (Scenario.adapt_env (Scenario.full_bundle [Py.Finite 1]))
             Scenario.adapt_args (Adapt.TCInt 1))))).
Proof.
  exact (proj1
    (@init_keyword_by_transfer
       (Scenario.adapt_env (Scenario.full_bundle [Py.Finite 1]))
       Scenario.adapt_args (Adapt.TCInt 1) [0; 1]
       (@Adapt.initial (Scenario.adapt_env (Scenario.full_bundle [Py.Finite 1]))
          Scenario.adapt_args (Adapt.TCInt 1))
       eq_refl)).
Defined.

(** ["007"] is test case 7, and so is ["7"], read the ASCII way. *)
Lemma parse_test_case_stable_witness :
  @Adapt.parse_test_case Py.ascii_only "7" = Run [] (Py.Ok (Adapt.TCInt 7)).
Proof.
  apply (@parse_test_case_stable Py.ascii_only "007" (Adapt.TCInt 7)).
  - reflexivity.
  - intros n [= <-]. reflexivity.
Defined.
